(** * Netflix Content Explorer ([streamlit_app.py]): loader, filters, aggregates

    A shallow embedding of the data semantics of the dashboard script:
    - [load_data] (lines 18-23): the two columns derived from [duration];
    - the options of the sidebar widgets (lines 29-33);
    - the filter statements (lines 36-45) that compute [filtered_df], as a
      function of the table and as a run on a store of frames;
    - the aggregates behind the charts (lines 49-102).

    Conventions of the embedding.
    - A DataFrame is the list of its rows, in index order; a column is the
      list of its cells; a nullable cell (NaN in pandas) is an [option].
      The columns the script guards with [notna], [dropna] or [pd.notnull]
      ([country], [listed_in], [rating], [duration]) are nullable, the
      others ([title], [type], [release_year]) are not.  [date_added],
      which line 20 rewrites with [pd.to_datetime(..., errors='coerce')],
      is read by no filter, widget or aggregate; the column is left out.
    - A frame that has lost its columns (what lines 39 and 42 make of an
      empty frame) is the frame [Bare]; reading a column of it raises
      [KeyError].
    - pandas and Python primitives are given their documented meaning:
      [df[mask]] keeps the rows at which the mask is True, in order;
      [c in x] on strings is substring containment; [re.search(r'\d+', d)]
      finds the leftmost maximal run of decimal digits.
    - Strings are strings of bytes: they are the texts Python sees when
      the text is ASCII, and [\d] is taken to match the digits 0-9.
      [int] is exact on [Z]; Python reads a run of up to 4300 digits, and
      a derived column that has a null cell is a float64 column, which
      keeps the numbers up to 2^53.  The duration column is taken to be a
      column of text, as it is when some cell is not a number.  The
      statements about the numbers the loader derives carry these
      conditions as hypotheses ([plain_durations], [names_a_unit]).
    - The sort inside [value_counts] is an argument of the model: the
      source does not fix the order it gives to equal counts.
    - A Python exception is a value [Raise e] of the type [result]. *)

From Stdlib Require Import String Ascii List ZArith Bool Arith Lia.
From Stdlib Require Import Sorting.Sorted Sorting.Permutation.
From Stdlib Require Import DecimalString DecimalNat.
Import ListNotations.

Local Open Scope string_scope.
Local Open Scope list_scope.

(* ===================================================================== *)
(** * Exceptions *)
(* ===================================================================== *)

Inductive exn : Type :=
| AttributeError  (* ['NoneType' object has no attribute 'group'] *)
| TypeError       (* [argument of type 'float' is not iterable] *)
| NameError       (* a variable bound to no object *)
| KeyError.       (* a column the frame does not have *)

Inductive result (A : Type) : Type :=
| Ok (a : A)
| Raise (e : exn).

Arguments Ok {A} a.
Arguments Raise {A} e.

Definition bind {A B : Type} (c : result A) (k : A -> result B) : result B :=
  match c with
  | Ok a => k a
  | Raise e => Raise e
  end.

Declare Scope result_scope.
Delimit Scope result_scope with result.
Notation "x <- c ;; k" := (bind c (fun x => k))
  (at level 61, c at next level, right associativity) : result_scope.

(** [Series.apply(f)]: [f] on every cell, in order; the first exception
    ends the call. *)
Fixpoint series_apply {A B : Type} (f : A -> result B) (col : list A)
  : result (list B) :=
  match col with
  | [] => Ok []
  | x :: rest =>
      (y <- f x ;;
       ys <- series_apply f rest ;;
       Ok (y :: ys))%result
  end.

(* ===================================================================== *)
(** * Python string primitives *)
(* ===================================================================== *)

Module PyStr.

(** [sub in s]: [sub] occurs in [s] as a contiguous substring. *)
Fixpoint contains (sub s : string) : bool :=
  prefix sub s ||
  match s with
  | EmptyString => false
  | String _ s' => contains sub s'
  end.

Definition is_digit (c : ascii) : bool :=
  (48 <=? nat_of_ascii c)%nat && (nat_of_ascii c <=? 57)%nat.

(** The longest prefix of [s] made of digits. *)
Fixpoint take_digits (s : string) : string :=
  match s with
  | EmptyString => EmptyString
  | String c s' => if is_digit c then String c (take_digits s') else EmptyString
  end.

(** [re.search(r'\d+', s)]: [None] when [s] has no digit, else the text of
    the leftmost match (what [.group()] returns).  The digits are 0-9:
    what [\d] matches in an ASCII text. *)
Fixpoint re_search_digits (s : string) : option string :=
  match s with
  | EmptyString => None
  | String c s' => if is_digit c then Some (take_digits s) else re_search_digits s'
  end.

Definition digit_value (c : ascii) : Z := Z.of_nat (nat_of_ascii c - 48).

Fixpoint int_acc (acc : Z) (s : string) : Z :=
  match s with
  | EmptyString => acc
  | String c s' => int_acc (acc * 10 + digit_value c) s'
  end.

(** [int(m)] for a string of digits, as Python computes it for a run of
    at most 4300 digits. *)
Definition int_of_digits (m : string) : Z := int_acc 0 m.

(** [s.split(sep)] for a non-empty [sep]: scan left to right; where [sep]
    starts, close the current piece and jump over [sep] ([skip] counts the
    characters of [sep] still to jump over). *)
Fixpoint split_from (sep : string) (skip : nat) (s : string) : list string :=
  match s with
  | EmptyString => [EmptyString]
  | String c s' =>
      match skip with
      | S k => split_from sep k s'
      | O =>
          if prefix sep s
          then EmptyString :: split_from sep (String.length sep - 1) s'
          else match split_from sep 0 s' with
               | piece :: pieces => String c piece :: pieces
               | [] => [String c EmptyString]
               end
      end
  end.

Definition split (sep s : string) : list string := split_from sep 0 s.

(** [sep.join(pieces)]. *)
Fixpoint join (sep : string) (pieces : list string) : string :=
  match pieces with
  | [] => EmptyString
  | [p] => p
  | p :: rest => p ++ sep ++ join sep rest
  end.

End PyStr.

(* ===================================================================== *)
(** * Rows and tables *)
(* ===================================================================== *)

(** A row of [netflix_titles.csv] as [pd.read_csv] yields it. *)
Record csv_row : Type := {
  csv_title : string;
  csv_type : string;
  csv_country : option string;
  csv_listed_in : option string;
  csv_rating : option string;
  csv_release_year : Z;
  csv_duration : option string
}.

(** A row of the loaded table: the csv columns and the two derived ones. *)
Record row : Type := {
  title : string;
  type : string;
  country : option string;
  listed_in : option string;
  rating : option string;
  release_year : Z;
  duration : option string;
  duration_minutes : option Z;
  num_seasons : option Z
}.

Definition table : Type := list row.

(* ===================================================================== *)
(** * The loader (lines 18-23) *)
(* ===================================================================== *)

(** The lambda of lines 21 and 22, for the unit token [unit]:
    [int(re.search(r'\d+', d).group()) if pd.notnull(d) and unit in d else np.nan].
    [re.search] returns [None] when [d] has no digit, and [None.group()]
    raises [AttributeError]. *)
Definition derive (unit : string) (d : option string) : result (option Z) :=
  match d with
  | Some s =>
      if PyStr.contains unit s
      then match PyStr.re_search_digits s with
           | Some m => Ok (Some (PyStr.int_of_digits m))
           | None => Raise AttributeError
           end
      else Ok None
  | None => Ok None
  end.

Definition mk_row (r : csv_row) (mins seasons : option Z) : row :=
  {| title := csv_title r;
     type := csv_type r;
     country := csv_country r;
     listed_in := csv_listed_in r;
     rating := csv_rating r;
     release_year := csv_release_year r;
     duration := csv_duration r;
     duration_minutes := mins;
     num_seasons := seasons |}.

(** Attaching the two derived columns to the frame, row by row. *)
Fixpoint add_columns (csv : list csv_row) (mins seasons : list (option Z))
  : table :=
  match csv, mins, seasons with
  | r :: csv', m :: mins', s :: seasons' =>
      mk_row r m s :: add_columns csv' mins' seasons'
  | _, _, _ => []
  end.

(** [load_data] on the rows read from the csv file: the whole
    [duration_minutes] column is computed first, then the whole
    [num_seasons] column. *)
Definition load_data (csv : list csv_row) : result table :=
  (mins <- series_apply (derive "min") (map csv_duration csv) ;;
   seasons <- series_apply (derive "Season") (map csv_duration csv) ;;
   Ok (add_columns csv mins seasons))%result.

(** What [load_data] does to one row. *)
Definition load_row (r : csv_row) : result row :=
  (m <- derive "min" (csv_duration r) ;;
   s <- derive "Season" (csv_duration r) ;;
   Ok (mk_row r m s))%result.

(* ===================================================================== *)
(** * Column and frame primitives *)
(* ===================================================================== *)

(** Python truthiness of a list: [if xs:]. *)
Definition truthy {A : Type} (xs : list A) : bool :=
  match xs with
  | [] => false
  | _ :: _ => true
  end.

Definition mem (v : string) (values : list string) : bool :=
  existsb (String.eqb v) values.

(** [col.isin(values)] on a column of strings. *)
Definition isin (values : list string) (col : list string) : list bool :=
  map (fun v => mem v values) col.

(** [col.isin(values)] on a nullable column: NaN is in no list of strings. *)
Definition isin_na (values : list string) (col : list (option string))
  : list bool :=
  map (fun c => match c with Some v => mem v values | None => false end) col.

(** A cell is not NaN; a column or frame has no row ([.empty]). *)
Definition has_value {A : Type} (cell : option A) : bool :=
  match cell with Some _ => true | None => false end.

Definition is_nil {A : Type} (l : list A) : bool :=
  match l with
  | [] => true
  | _ :: _ => false
  end.

(** [col.notna()]. *)
Definition notna {A : Type} (col : list (option A)) : list bool :=
  map (fun c => match c with Some _ => true | None => false end) col.

(** [col.dropna()]. *)
Fixpoint dropna {A : Type} (col : list (option A)) : list A :=
  match col with
  | [] => []
  | Some x :: rest => x :: dropna rest
  | None :: rest => dropna rest
  end.

(** [any(c in x for c in tokens)] on one cell [x]: the generator stops at
    the first hit; on a NaN cell the first [c in x] raises [TypeError]. *)
Fixpoint any_in (tokens : list string) (x : option string) : result bool :=
  match tokens with
  | [] => Ok false
  | c :: rest =>
      match x with
      | None => Raise TypeError
      | Some s => if PyStr.contains c s then Ok true else any_in rest x
      end
  end.

(** [(col >= lo) & (col <= hi)]. *)
Definition ge_mask (col : list Z) (lo : Z) : list bool := map (fun y => (lo <=? y)%Z) col.
Definition le_mask (col : list Z) (hi : Z) : list bool := map (fun y => (y <=? hi)%Z) col.

Fixpoint and_mask (a b : list bool) : list bool :=
  match a, b with
  | x :: a', y :: b' => (x && y) :: and_mask a' b'
  | _, _ => []
  end.

(** [df[mask]]: a new frame with the rows of [df] at which [mask] is True. *)
Fixpoint getitem (df : table) (mask : list bool) : table :=
  match df, mask with
  | r :: df', b :: mask' =>
      if b then r :: getitem df' mask' else getitem df' mask'
  | _, _ => []
  end.

(* ===================================================================== *)
(** * The filters (lines 28-45) *)
(* ===================================================================== *)

(** What the sidebar widgets return. *)
Record selection : Type := {
  types : list string;
  countries : list string;
  genres : list string;
  ratings : list string;
  year_range : Z * Z
}.

(** [df['type'].unique()]: the values in order of first appearance. *)
Fixpoint unique (col : list string) : list string :=
  match col with
  | [] => []
  | v :: rest => v :: filter (fun w => negb (String.eqb w v)) (unique rest)
  end.

(** The masks of the filter statements, each computed from the frame it
    indexes. *)
Definition type_mask (types : list string) (f : table) : result (list bool) :=
  Ok (isin types (map type f)).

Definition country_notna_mask (f : table) : result (list bool) :=
  Ok (notna (map country f)).

Definition country_mask (countries : list string) (f : table)
  : result (list bool) :=
  series_apply (any_in countries) (map country f).

Definition genre_notna_mask (f : table) : result (list bool) :=
  Ok (notna (map listed_in f)).

Definition genre_mask (genres : list string) (f : table) : result (list bool) :=
  series_apply (any_in genres) (map listed_in f).

Definition rating_mask (ratings : list string) (f : table) : result (list bool) :=
  Ok (isin_na ratings (map rating f)).

Definition year_mask (range : Z * Z) (f : table) : result (list bool) :=
  Ok (and_mask (ge_mask (map release_year f) (fst range))
               (le_mask (map release_year f) (snd range))).

(** [f[mask(f)]]. *)
Definition select (mask : table -> result (list bool)) (f : table)
  : result table :=
  (m <- mask f ;; Ok (getitem f m))%result.

(** Line 36. *)
Definition type_filter (types : list string) (df : table) : result table :=
  select (type_mask types) df.

(** Lines 37-39. *)
Definition country_filter (countries : list string) (f : table) : result table :=
  if truthy countries
  then (f1 <- select country_notna_mask f ;;
        select (country_mask countries) f1)%result
  else Ok f.

(** Lines 40-42. *)
Definition genre_filter (genres : list string) (f : table) : result table :=
  if truthy genres
  then (f1 <- select genre_notna_mask f ;;
        select (genre_mask genres) f1)%result
  else Ok f.

(** Lines 43-44. *)
Definition rating_filter (ratings : list string) (f : table) : result table :=
  if truthy ratings
  then select (rating_mask ratings) f
  else Ok f.

(** Line 45. *)
Definition year_filter (range : Z * Z) (f : table) : result table :=
  select (year_mask range) f.

(** The five definitions above give the rows each statement keeps, for a
    frame that has its columns.  A frame can lose them.  [Series.apply] on
    an empty column returns an empty Series of dtype object, which is no
    boolean mask; [f[key]] then reads [key] as a list of column names, an
    empty one, and gives a frame with no column (and no row).  The next
    [filtered_df['...']] raises [KeyError]. *)
Inductive frame : Type :=
| Frame (rows : table)   (* the columns of the loaded table *)
| Bare.                  (* no column, no row *)

(** [fr[...]] with a key computed from a column of [fr]. *)
Definition with_columns {A : Type} (fr : frame) (k : table -> result A)
  : result A :=
  match fr with
  | Frame f => k f
  | Bare => Raise KeyError
  end.

(** [f[mask(f)]] for a mask of dtype bool ([isin], [notna], comparisons). *)
Definition by_mask (mask : table -> result (list bool)) (f : table)
  : result frame :=
  (m <- mask f ;; Ok (Frame (getitem f m)))%result.

(** [f[key]] for the Series [key] that [apply] returned on a column of
    [f]. *)
Definition getitem_applied (f : table) (key : list bool) : frame :=
  match key with
  | [] => Bare
  | _ :: _ => Frame (getitem f key)
  end.

Definition by_applied (key : table -> result (list bool)) (f : table)
  : result frame :=
  (k <- key f ;; Ok (getitem_applied f k))%result.

(** Lines 37-45 on the frame bound to [filtered_df]. *)
Definition country_lines (countries : list string) (fr : frame) : result frame :=
  if truthy countries
  then (fr1 <- with_columns fr (by_mask country_notna_mask) ;;
        with_columns fr1 (by_applied (country_mask countries)))%result
  else Ok fr.

Definition genre_lines (genres : list string) (fr : frame) : result frame :=
  if truthy genres
  then (fr1 <- with_columns fr (by_mask genre_notna_mask) ;;
        with_columns fr1 (by_applied (genre_mask genres)))%result
  else Ok fr.

Definition rating_lines (ratings : list string) (fr : frame) : result frame :=
  if truthy ratings
  then with_columns fr (by_mask (rating_mask ratings))
  else Ok fr.

Definition year_line (range : Z * Z) (fr : frame) : result frame :=
  with_columns fr (by_mask (year_mask range)).

(** The rows of a frame that has its columns. *)
Definition rows_of (fr : frame) : result table :=
  with_columns fr (fun f => Ok f).

(** The value of [filtered_df] after line 45, from the loaded [df] and the
    widgets' selection. *)
Definition filtered_df (sel : selection) (df : table) : result table :=
  (fr1 <- by_mask (type_mask (types sel)) df ;;
   fr2 <- country_lines (countries sel) fr1 ;;
   fr3 <- genre_lines (genres sel) fr2 ;;
   fr4 <- rating_lines (ratings sel) fr3 ;;
   fr5 <- year_line (year_range sel) fr4 ;;
   rows_of fr5)%result.

(** ** The same statements over a store of frame objects

    A variable holds a reference to a DataFrame object.  [x[key]] builds
    a new object; an assignment rebinds the variable on its left and
    touches no object.  A statement that raises leaves the store and the
    variables as they were. *)
Module Script.

Definition loc : Type := nat.

Record state : Type := {
  heap : list frame;        (* the frame objects, by address *)
  v_df : loc;               (* the global [df] *)
  v_filtered_df : loc       (* the global [filtered_df] *)
}.

(** How a run ends, and the state it ends in. *)
Inductive outcome : Type :=
| Done (st : state)
| Raised (e : exn) (st : state).

Definition final_state (o : outcome) : state :=
  match o with
  | Done st => st
  | Raised _ st => st
  end.

Definition deref (st : state) (l : loc) : result frame :=
  match nth_error (heap st) l with
  | Some fr => Ok fr
  | None => Raise NameError
  end.

(** [filtered_df = src[key]], the key computed from a column of [src]. *)
Definition assign_filtered (src : state -> loc)
  (index : table -> result frame) (st : state) : outcome :=
  match (fr <- deref st (src st) ;; with_columns fr index)%result with
  | Ok fr' =>
      Done {| heap := heap st ++ [fr'];
              v_df := v_df st;
              v_filtered_df := List.length (heap st) |}
  | Raise e => Raised e st
  end.

(** One statement after the other; an exception ends the run. *)
Definition and_then (o : outcome) (next : state -> outcome) : outcome :=
  match o with
  | Done st => next st
  | Raised e st => Raised e st
  end.

Definition when (b : bool) (body : state -> outcome) (st : state) : outcome :=
  if b then body st else Done st.

(** Lines 36-45. *)
Definition apply_filters (sel : selection) (st : state) : outcome :=
  and_then (assign_filtered v_df (by_mask (type_mask (types sel))) st)
    (fun st1 =>
  and_then (when (truthy (countries sel))
              (fun s => and_then
                 (assign_filtered v_filtered_df (by_mask country_notna_mask) s)
                 (assign_filtered v_filtered_df
                    (by_applied (country_mask (countries sel))))) st1)
    (fun st2 =>
  and_then (when (truthy (genres sel))
              (fun s => and_then
                 (assign_filtered v_filtered_df (by_mask genre_notna_mask) s)
                 (assign_filtered v_filtered_df
                    (by_applied (genre_mask (genres sel))))) st2)
    (fun st3 =>
  and_then (when (truthy (ratings sel))
              (assign_filtered v_filtered_df (by_mask (rating_mask (ratings sel))))
              st3)
    (assign_filtered v_filtered_df (by_mask (year_mask (year_range sel))))))).

(** The state in which line 36 starts: [df] is bound to the loaded frame
    and [filtered_df] is not bound yet (it points past the heap). *)
Definition initial (df : table) : state :=
  {| heap := [Frame df]; v_df := 0; v_filtered_df := 1 |}.

(** [st'] is [st] with new objects only: every old address holds what it
    held, and [df] is bound as before. *)
Definition extends (st st' : state) : Prop :=
  v_df st' = v_df st /\ exists fresh, heap st' = heap st ++ fresh.

(** The statements [prog] keep [filtered_df] in step with the function
    [step] on frames, whether they end or raise, and add to the store of
    [st0] new objects only. *)
Definition tracks (st0 : state) (prog : state -> outcome)
  (step : frame -> result frame) : Prop :=
  forall st fr,
    extends st0 st -> deref st (v_filtered_df st) = Ok fr ->
    extends st0 (final_state (prog st))
    /\ match prog st with
       | Done st' =>
           exists fr', step fr = Ok fr'
                       /\ deref st' (v_filtered_df st') = Ok fr'
       | Raised e _ => step fr = Raise e
       end.

End Script.

(* ===================================================================== *)
(** * The aggregates (lines 49-57 and 71) *)
(* ===================================================================== *)

(** One more occurrence of [k] in a table of counts; a new key goes last. *)
Fixpoint bump (k : string) (tab : list (string * nat)) : list (string * nat) :=
  match tab with
  | [] => [(k, 1)]
  | (k', n) :: rest =>
      if String.eqb k k' then (k', S n) :: rest else (k', n) :: bump k rest
  end.

(** The counts of the values of a column, keyed in order of first
    appearance. *)
Definition tally (col : list string) : list (string * nat) :=
  fold_left (fun tab k => bump k tab) col [].

(** Insertion in a list sorted by decreasing count, before the first entry
    whose count is not larger. *)
Fixpoint insert_desc (x : string * nat) (l : list (string * nat))
  : list (string * nat) :=
  match l with
  | [] => [x]
  | y :: l' => if (snd x <? snd y)%nat then y :: insert_desc x l' else x :: l
  end.

(** A sort by decreasing count that keeps entries of equal count in the
    order they had (a stable sort). *)
Fixpoint sort_desc (l : list (string * nat)) : list (string * nat) :=
  match l with
  | [] => []
  | x :: l' => insert_desc x (sort_desc l')
  end.



(** The sort inside [Series.value_counts].  The source calls the library
    without naming a sort: [value_counts] sorts the table of counts with
    [sort_values(ascending=False)], whose default algorithm (quicksort) is
    not stable, so the source fixes the order by count and says nothing of
    the order among equal counts.  The sort is therefore an argument of
    the model; what the library promises of it is [sorts_by_count] below,
    and [sort_desc] and [sort_desc_last] are two sorts that keep the
    promise. *)
Definition sorter : Type := list (string * nat) -> list (string * nat).

(** [col.value_counts()]: NaN dropped, the counts of the values by
    decreasing count. *)
Definition value_counts (sort_values : sorter) (col : list (option string))
  : list (string * nat) :=
  sort_values (tally (dropna col)).

(** [col.str.split(sep)] on a column of strings. *)
Definition str_split (sep : string) (col : list string) : list (list string) :=
  map (PyStr.split sep) col.

(** [col.explode()]: one cell per list element, NaN for an empty list. *)
Fixpoint explode (col : list (list string)) : list (option string) :=
  match col with
  | [] => []
  | [] :: rest => None :: explode rest
  | (x :: xs) :: rest => map Some (x :: xs) ++ explode rest
  end.

(** [s.head(n)]. *)
Definition head {A : Type} (n : nat) (s : list A) : list A := firstn n s.

(** Line 71.  It runs after line 30 has evaluated [df['country'].dropna()
    .str.split(', ')] on the whole table without raising, so the [.str]
    accessor is not a source of exceptions here (see [token_options]). *)
Definition top_countries (sort_values : sorter) (f : table)
  : list (string * nat) :=
  head 10 (value_counts sort_values
             (explode (str_split ", " (dropna (map country f))))).

(** Line 55, [sns.countplot(data=filtered_df, x='type')]: one bar per type
    value, in order of first appearance, its height the number of rows. *)
Definition countplot_type (f : table) : list (string * nat) :=
  tally (map type f).

(** Line 49, [filtered_df.shape[0]]. *)
Definition n_titles (f : table) : nat := List.length f.

(* ===================================================================== *)
(** * The sidebar (lines 29-33) *)
(* ===================================================================== *)

(** The text columns ([type], [country], [listed_in], [rating]) are read
    as columns of strings and NaN (dtype object), as they are for a csv
    file that has at least one string in each of them; a column with rows
    and no string at all is read as float64, which matters where the
    script uses the [.str] accessor (see [reads_as_text]). *)

(** [sorted(xs)] on strings: Python orders strings by code point, which is
    the order of their bytes. *)
Fixpoint insert_sorted (x : string) (l : list string) : list string :=
  match l with
  | [] => [x]
  | y :: l' => if String.leb x y then x :: l else y :: insert_sorted x l'
  end.

Fixpoint sorted (l : list string) : list string :=
  match l with
  | [] => []
  | x :: l' => insert_sorted x (sorted l')
  end.

(** The elements of [set(col)] for an exploded column: strings only; a
    NaN among strings is what [sorted] would fail to compare. *)
Definition set_of_strings (col : list (option string)) : result (list string) :=
  (cells <- series_apply
              (fun c => match c with Some x => Ok x | None => Raise TypeError end)
              col ;;
   Ok (unique cells))%result.

(** The dtype [pd.read_csv] gives a column of text cells: object (strings
    and NaN) when the column has no row or has some string, float64 when
    it has rows and every cell is null. *)
Definition reads_as_text (col : list (option string)) : bool :=
  is_nil col || existsb has_value col.

(** [col.str]: the accessor exists on a column of dtype object only;
    [dropna] keeps the dtype of the column it is called on. *)
Definition str_accessor (col : list (option string)) : result unit :=
  if reads_as_text col then Ok tt else Raise AttributeError.

(** [sorted(set(col.dropna().str.split(', ').explode()))], the options of
    the country and genre widgets (lines 30 and 31).  A set has each
    element once; [sorted] gives the same list whatever the order in which
    the set yields them. *)
Definition token_options (col : list (option string)) : result (list string) :=
  (_ <- str_accessor col ;;
   elements <- set_of_strings (explode (str_split ", " (dropna col))) ;;
   Ok (sorted elements))%result.

Definition type_options (df : table) : list string := unique (map type df).

Definition country_options (df : table) : result (list string) :=
  token_options (map country df).


(** Line 32: [sorted(df['rating'].dropna().unique())]. *)
Definition rating_options (df : table) : list string :=
  sorted (unique (dropna (map rating df))).

(** [col.min()] and [col.max()] on a column of integers: NaN ([None]) for
    an empty column. *)
Definition series_min (col : list Z) : option Z :=
  match col with
  | [] => None
  | y :: rest => Some (fold_left Z.min rest y)
  end.

Definition series_max (col : list Z) : option Z :=
  match col with
  | [] => None
  | y :: rest => Some (fold_left Z.max rest y)
  end.

(** The two bounds of the release-year slider (line 33):
    [int(df['release_year'].min())], [int(df['release_year'].max())].
    [int(nan)] raises [ValueError]. *)
Inductive slider_bounds : Type :=
| Bounds (lo hi : Z)
| ValueError.

Definition year_bounds (df : table) : slider_bounds :=
  match series_min (map release_year df), series_max (map release_year df) with
  | Some lo, Some hi => Bounds lo hi
  | _, _ => ValueError
  end.

(** What the widgets return before the user touches them: every type
    ([default=df['type'].unique()]), no country, genre or rating
    ([default=None]), and the years [(2010, 2021)]. *)
Definition initial_selection (df : table) : selection :=
  {| types := type_options df;
     countries := [];
     genres := [];
     ratings := [];
     year_range := (2010, 2021)%Z |}.

(* ===================================================================== *)
(** * The other charts (lines 62, 79 and 84-102) *)
(* ===================================================================== *)

Section Counting.

(** Counting over any type of keys with a boolean equality. *)
Context {K : Type} (eqb : K -> K -> bool).

Fixpoint bump_by (k : K) (tab : list (K * nat)) : list (K * nat) :=
  match tab with
  | [] => [(k, 1)]
  | (k', n) :: rest =>
      if eqb k k' then (k', S n) :: rest else (k', n) :: bump_by k rest
  end.

Definition tally_by (col : list K) : list (K * nat) :=
  fold_left (fun tab k => bump_by k tab) col [].

Fixpoint insert_count (x : K * nat) (l : list (K * nat)) : list (K * nat) :=
  match l with
  | [] => [x]
  | y :: l' => if (snd x <? snd y)%nat then y :: insert_count x l' else x :: l
  end.

(** The sort by decreasing count inside [value_counts]. *)
Fixpoint sort_count (l : list (K * nat)) : list (K * nat) :=
  match l with
  | [] => []
  | x :: l' => insert_count x (sort_count l')
  end.

(** The values of a column in order of first appearance, and the number
    of cells equal to [k]. *)
Fixpoint unique_by (col : list K) : list K :=
  match col with
  | [] => []
  | v :: rest => v :: filter (fun w => negb (eqb w v)) (unique_by rest)
  end.

Definition occurrences_by (k : K) (col : list K) : nat :=
  List.length (filter (eqb k) col).

End Counting.

(** [s.sort_index()] on counts keyed by integers: increasing key. *)
Fixpoint insert_key (x : Z * nat) (l : list (Z * nat)) : list (Z * nat) :=
  match l with
  | [] => [x]
  | y :: l' => if (fst x <=? fst y)%Z then x :: l else y :: insert_key x l'
  end.

Fixpoint sort_index (l : list (Z * nat)) : list (Z * nat) :=
  match l with
  | [] => []
  | x :: l' => insert_key x (sort_index l')
  end.

(** Line 62: [filtered_df['release_year'].value_counts().sort_index()],
    the points of the line chart. *)
Definition titles_per_year (f : table) : list (Z * nat) :=
  sort_index (sort_count (tally_by Z.eqb (map release_year f))).

(** Line 79: the bars of the rating chart.  Their order is
    [filtered_df['rating'].value_counts().index]; the height of a bar is
    the number of rows with that rating, counted by [countplot]. *)
Definition rating_order (sort_values : sorter) (f : table) : list string :=
  map fst (value_counts sort_values (map rating f)).

Definition rows_rated (k : string) (f : table) : nat :=
  List.length
    (filter (fun r => match rating r with
                      | Some v => String.eqb v k
                      | None => false
                      end) f).

Definition rating_bars (sort_values : sorter) (f : table)
  : list (string * nat) :=
  map (fun k => (k, rows_rated k f)) (rating_order sort_values f).

(** [col.str.contains(pat).any()] for a pattern without special
    characters. *)
Definition str_contains_any (pat : string) (col : list string) : bool :=
  existsb (PyStr.contains pat) col.

(** A conditional section of the page: whether its heading is written, and
    the values handed to the chart when one is drawn. *)
Record chart_section : Type := {
  heading : bool;
  plotted : option (list Z)
}.

(** Lines 84-91 and 94-102, for the type [kind] and the column [field]:
    [if filtered_df['type'].str.contains(kind).any():] write the heading,
    take [filtered_df[filtered_df['type'] == kind][field].dropna()], and
    draw the chart [if not values.empty].  (The test that the column is
    among [filtered_df.columns] holds for every loaded frame.) *)
Definition section_of (kind : string) (field : row -> option Z) (f : table)
  : chart_section :=
  if str_contains_any kind (map type f)
  then
    let values :=
      dropna (map field (getitem f (map (fun t => String.eqb t kind) (map type f)))) in
    {| heading := true;
       plotted := match values with
                  | [] => None
                  | _ :: _ => Some values
                  end |}
  else {| heading := false; plotted := None |}.

(** Lines 84-91. *)
Definition movie_section (f : table) : chart_section :=
  section_of "Movie" duration_minutes f.

(** Lines 94-102; the chart counts the values it is given. *)
Definition tv_section (f : table) : chart_section :=
  section_of "TV Show" num_seasons f.

(* ===================================================================== *)
(** * Vocabulary of the statements *)
(* ===================================================================== *)

(** [sub] occurs in [s]: [s] is [a ++ sub ++ b]. *)
Definition occurs_in (sub s : string) : Prop :=
  exists a b : string, s = (a ++ sub ++ b)%string.

(** Which derived cells of a loaded row are null, by the unit tokens its
    duration text contains. *)
Definition units_spec (r : row) : Prop :=
  match duration r with
  | None => duration_minutes r = None /\ num_seasons r = None
  | Some d =>
      (duration_minutes r <> None <-> occurs_in "min" d)
      /\ (num_seasons r <> None <-> occurs_in "Season" d)
  end.

(** [s] has a decimal digit. *)
Fixpoint has_digit (s : string) : bool :=
  match s with
  | EmptyString => false
  | String c s' => PyStr.is_digit c || has_digit s'
  end.

(** Every character of [s] is a decimal digit. *)
Fixpoint all_digits (s : string) : bool :=
  match s with
  | EmptyString => true
  | String c s' => PyStr.is_digit c && all_digits s'
  end.

Definition starts_with_digit (s : string) : bool :=
  match s with
  | EmptyString => false
  | String c _ => PyStr.is_digit c
  end.

(** The decimal numeral of a natural number. *)
Definition decimal (n : nat) : string :=
  NilEmpty.string_of_uint (Nat.to_uint n).

(** The ten decimal digits, and a text without any of them. *)
Definition decimal_digits : list ascii := list_ascii_of_string "0123456789".

Definition digitless (s : string) : Prop :=
  forall c, In c (list_ascii_of_string s) -> ~ In c decimal_digits.

(** A row on which the lambda of lines 21-22 raises: its duration names a
    unit and has no digit. *)
Definition offending (c : csv_row) : Prop :=
  exists s, csv_duration c = Some s
            /\ (occurs_in "min" s \/ occurs_in "Season" s)
            /\ digitless s.

(** The duration texts on which the strings of the model are the texts
    Python sees and numbers are read and kept exactly: ASCII characters
    only (the bytes are then the characters, and [\d] matches the digits
    0-9 and no other), and at most 15 digits ([int] reads a run of that
    length, and a float64 cell, which a derived column has beside a null
    cell, holds its number exactly). *)
Definition plain (s : string) : bool :=
  forallb (fun c => (nat_of_ascii c <? 128)%nat) (list_ascii_of_string s)
  && (List.length
        (filter (fun c => existsb (Ascii.eqb c) decimal_digits)
           (list_ascii_of_string s)) <=? 15)%nat.

Definition plain_durations (csv : list csv_row) : Prop :=
  Forall (fun c => forall s, csv_duration c = Some s -> plain s = true) csv.

(** The duration column is read as text (dtype object): some cell names a
    unit, so the column is not one of numbers. *)
Definition names_a_unit (csv : list csv_row) : Prop :=
  exists c s, In c csv /\ csv_duration c = Some s
              /\ (occurs_in "min" s \/ occurs_in "Season" s).

(** The cell of a derived column when the lambda does not raise. *)
Definition cell_of (unit : string) (d : option string) : option Z :=
  match d with
  | Some s =>
      if PyStr.contains unit s
      then option_map PyStr.int_of_digits (PyStr.re_search_digits s)
      else None
  | None => None
  end.

(** The character [c] is in [s]. *)
Fixpoint has_char (c : ascii) (s : string) : bool :=
  match s with
  | EmptyString => false
  | String c' s' => Ascii.eqb c c' || has_char c s'
  end.

(** [l1] is [l2] with some elements removed, the others in place. *)
Inductive subseq {A : Type} : list A -> list A -> Prop :=
| subseq_nil : subseq [] []
| subseq_skip : forall x l1 l2, subseq l1 l2 -> subseq l1 (x :: l2)
| subseq_keep : forall x l1 l2, subseq l1 l2 -> subseq (x :: l1) (x :: l2).

(** The position at which [k] is first seen in [l] (the length of [l] when
    it never is). *)
Fixpoint first_seen (k : string) (l : list string) : nat :=
  match l with
  | [] => 0
  | x :: rest => if String.eqb k x then 0 else S (first_seen k rest)
  end.

(** Number of cells of [l] equal to [k]. *)
Definition occurrences (k : string) (l : list string) : nat :=
  List.length (filter (String.eqb k) l).

(** [a] is first seen in [l] before [b] is. *)
Definition seen_before (l : list string) (a b : string) : Prop :=
  first_seen a l < first_seen b l.

(** The entry [x] of a ranking comes before [y]: a larger count, or the
    same count and a value seen first in [toks]. *)
Definition ranks_before (toks : list string) (x y : string * nat) : Prop :=
  snd y < snd x
  \/ (snd x = snd y /\ seen_before toks (fst x) (fst y)).

(** What the library promises of the sort inside [value_counts]: the same
    entries, by decreasing count. *)
Definition sorts_by_count (sort_values : sorter) : Prop :=
  forall tab,
    Permutation (sort_values tab) tab
    /\ StronglySorted (fun a b => snd b <= snd a) (sort_values tab).

(** [pieces] are the pieces of [s] between the occurrences of [sep]: no
    piece contains [sep], and [s] is the pieces with [sep] between them. *)
Inductive splits_into (sep : string) : string -> list string -> Prop :=
| splits_last (p : string) :
    ~ occurs_in sep p -> splits_into sep p [p]
| splits_more (p rest : string) (pieces : list string) :
    ~ occurs_in sep p -> splits_into sep rest pieces ->
    splits_into sep (p ++ sep ++ rest) (p :: pieces).

(** The country names of a frame: each non-null [country] cell split at
    [", "], all the pieces in row order. *)
Definition country_tokens (f : table) : list string :=
  concat (map (PyStr.split ", ") (dropna (map country f))).

(** The two tests of a token filter on the column [col] ([country] or
    [listed_in]): the cell is not null, and some token occurs in it. *)
Definition notna_cell (col : row -> option string) (r : row) : bool :=
  match col r with Some _ => true | None => false end.

Definition any_cell (col : row -> option string) (tokens : list string)
  (r : row) : bool :=
  match col r with
  | Some x => existsb (fun c => PyStr.contains c x) tokens
  | None => false
  end.

(** The genre tags of a frame, like [country_tokens]. *)
Definition genre_tokens (f : table) : list string :=
  concat (map (PyStr.split ", ") (dropna (map listed_in f))).

(** [a] comes strictly before [b] in the order of [sorted]. *)
Definition str_lt (a b : string) : Prop := String.ltb a b = true.

(** The values handed to the two conditional charts: the non-null cells
    of [field] on the rows of type exactly [kind]. *)
Definition values_of (kind : string) (field : row -> option Z) (f : table)
  : list Z :=
  dropna (map field (filter (fun r => String.eqb (type r) kind) f)).

(** The selection [a] of a token or rating widget is at most as wide as
    [b]: [b] is empty (no constraint), or [a] is a non-empty part of it. *)
Definition at_most (a b : list string) : Prop :=
  b = [] \/ (a <> [] /\ incl a b).

(** The row predicate of each filter, and of all of them. *)
Definition keeps_type (types : list string) (r : row) : bool :=
  mem (type r) types.

Definition keeps_tokens (tokens : list string) (cell : option string) : bool :=
  match tokens with
  | [] => true
  | _ :: _ =>
      match cell with
      | Some x => existsb (fun c => PyStr.contains c x) tokens
      | None => false
      end
  end.

Definition keeps_rating (ratings : list string) (r : row) : bool :=
  match ratings with
  | [] => true
  | _ :: _ =>
      match rating r with
      | Some v => mem v ratings
      | None => false
      end
  end.

Definition keeps_year (range : Z * Z) (r : row) : bool :=
  (fst range <=? release_year r)%Z && (release_year r <=? snd range)%Z.

Definition keeps (sel : selection) (r : row) : bool :=
  keeps_type (types sel) r
  && keeps_tokens (countries sel) (country r)
  && keeps_tokens (genres sel) (listed_in r)
  && keeps_rating (ratings sel) r
  && keeps_year (year_range sel) r.

(** The selections and tables on which lines 39 or 42 index an emptied
    frame: a country is chosen and no row of a chosen type has a country,
    or a genre is chosen and no row that passed the type and country tests
    has a genre. *)
Definition loses_columns (sel : selection) (df : table) : bool :=
  let f1 := filter (keeps_type (types sel)) df in
  (truthy (countries sel) && is_nil (filter (notna_cell country) f1))
  || (truthy (genres sel)
      && is_nil (filter (notna_cell listed_in)
                   (filter (fun r => keeps_tokens (countries sel) (country r))
                      f1))).

(* ===================================================================== *)
(** * Sample data *)
(* ===================================================================== *)

(** The two rows of the catalog used in the examples. *)
Definition csv_movie : csv_row :=
  {| csv_title := "Lagaan";
     csv_type := "Movie";
     csv_country := Some "United States, India";
     csv_listed_in := Some "Dramas, International Movies";
     csv_rating := Some "PG-13";
     csv_release_year := 2015;
     csv_duration := Some "90 min" |}.

Definition csv_show : csv_row :=
  {| csv_title := "Sacred Games";
     csv_type := "TV Show";
     csv_country := Some "India";
     csv_listed_in := Some "Crime TV Shows";
     csv_rating := Some "TV-MA";
     csv_release_year := 2019;
     csv_duration := Some "2 Seasons" |}.

(** A row with no duration, one whose duration names both units, and one
    whose duration names a unit and has no number. *)
Definition csv_no_duration : csv_row :=
  {| csv_title := "Untitled";
     csv_type := "Movie";
     csv_country := None;
     csv_listed_in := None;
     csv_rating := None;
     csv_release_year := 2020;
     csv_duration := None |}.

Definition csv_both_units : csv_row :=
  {| csv_title := "Special";
     csv_type := "TV Show";
     csv_country := None;
     csv_listed_in := None;
     csv_rating := Some "TV-14";
     csv_release_year := 2018;
     csv_duration := Some "1 Season, 45 min" |}.

Definition csv_unit_only : csv_row :=
  {| csv_title := "Short";
     csv_type := "Movie";
     csv_country := Some "France";
     csv_listed_in := None;
     csv_rating := None;
     csv_release_year := 2016;
     csv_duration := Some "min" |}.

(** A row with the duration text [d]. *)
Definition mk_csv_duration (d : string) : csv_row :=
  {| csv_title := "Untitled";
     csv_type := "Movie";
     csv_country := None;
     csv_listed_in := None;
     csv_rating := None;
     csv_release_year := 2020;
     csv_duration := Some d |}.

(** Two more rows, released in 2005 and in 2021. *)
Definition classic_row : row :=
  {| title := "Classic"; type := "Movie"; country := Some "France";
     listed_in := Some "Dramas"; rating := Some "PG-13"; release_year := 2005;
     duration := Some "101 min"; duration_minutes := Some 101%Z;
     num_seasons := None |}.

Definition recent_row : row :=
  {| title := "Recent"; type := "TV Show"; country := None;
     listed_in := Some "Kids' TV"; rating := None; release_year := 2021;
     duration := Some "1 Season"; duration_minutes := None;
     num_seasons := Some 1%Z |}.

Definition movie_row : row := mk_row csv_movie (Some 90%Z) None.
Definition show_row : row := mk_row csv_show None (Some 2%Z).
Definition no_duration_row : row := mk_row csv_no_duration None None.

Definition sample_selection : selection :=
  {| types := ["Movie"; "TV Show"];
     countries := ["India"];
     genres := [];
     ratings := [];
     year_range := (2010, 2021)%Z |}.

(** A choice of one type and one country. *)
Definition movies_from_india : selection :=
  {| types := ["Movie"];
     countries := ["India"];
     genres := [];
     ratings := [];
     year_range := (2000, 2021)%Z |}.

(* ===================================================================== *)
(** * Facts about the primitives *)
(* ===================================================================== *)

Section ResultFacts.

Context {A B : Type}.

Lemma bind_ok (c : result A) (k : A -> result B) (b : B) :
  bind c k = Ok b -> exists a, c = Ok a /\ k a = Ok b.
Proof.
  destruct c as [a | e]; simpl; intros H.
  - exists a. split; [reflexivity | exact H].
  - discriminate H.
Qed.

Lemma series_apply_pure (f : A -> B) (col : list A) :
  series_apply (fun x => Ok (f x)) col = Ok (map f col).
Proof.
  induction col as [| x rest IH]; simpl.
  - reflexivity.
  - rewrite IH. reflexivity.
Qed.

Lemma series_apply_cells (f : A -> result B) (col : list A) (ys : list B) :
  series_apply f col = Ok ys -> Forall2 (fun x y => f x = Ok y) col ys.
Proof.
  revert ys. induction col as [| x rest IH]; simpl; intros ys H.
  - injection H as <-. constructor.
  - destruct (f x) as [y | e] eqn:Hx; simpl in H; [| discriminate H].
    destruct (series_apply f rest) as [ys' | e] eqn:Hrest; simpl in H;
      [| discriminate H].
    injection H as <-. constructor; [exact Hx | apply IH; reflexivity].
Qed.

End ResultFacts.

Module PyStrFacts.
Import PyStr.

Lemma prefix_app (sub s : string) :
  prefix sub s = true <-> exists b, s = (sub ++ b)%string.
Proof.
  revert s. induction sub as [| c sub IH]; intros s.
  - split; [intros _; exists s; reflexivity | intros _; destruct s; reflexivity].
  - destruct s as [| c' s]; simpl.
    + split; [discriminate | intros [b Hb]; discriminate Hb].
    + destruct (ascii_dec c c') as [-> | Hne].
      * rewrite IH. split; intros [b Hb]; exists b.
        -- rewrite Hb. reflexivity.
        -- injection Hb as ->. reflexivity.
      * split; [discriminate |].
        intros [b Hb]. injection Hb as Hc _. congruence.
Qed.

Lemma contains_unfold (sub s : string) :
  contains sub s =
  prefix sub s || match s with
                  | EmptyString => false
                  | String _ s' => contains sub s'
                  end.
Proof. destruct s; reflexivity. Qed.

(** [contains] decides substring occurrence. *)
Lemma contains_occurs (sub s : string) :
  contains sub s = true <-> occurs_in sub s.
Proof.
  split.
  - induction s as [| c s IH]; rewrite contains_unfold; intros H;
      apply orb_true_iff in H; destruct H as [H | H].
    + apply prefix_app in H. destruct H as [b Hb]. exists EmptyString, b. exact Hb.
    + discriminate H.
    + apply prefix_app in H. destruct H as [b Hb]. exists EmptyString, b. exact Hb.
    + destruct (IH H) as (a & b & Hab). exists (String c a), b.
      rewrite Hab. reflexivity.
  - intros (a & b & Hab). subst s. induction a as [| c a IH].
    + rewrite contains_unfold. apply orb_true_iff. left.
      apply prefix_app. exists b. reflexivity.
    + simpl. rewrite IH. apply orb_true_r.
Qed.

Lemma contains_empty (s : string) : contains EmptyString s = true.
Proof. destruct s; reflexivity. Qed.

(** [re.search] finds a match exactly when the text has a digit. *)
Lemma re_search_digits_some (s : string) :
  has_digit s = true <-> exists m, re_search_digits s = Some m.
Proof.
  induction s as [| c s IH]; simpl.
  - split; [discriminate | intros [m Hm]; discriminate Hm].
  - destruct (is_digit c); simpl.
    + split; [intros _; eexists; reflexivity | reflexivity].
    + exact IH.
Qed.

(** [split] never returns an empty list. *)
Lemma split_from_nonempty (sep : string) (skip : nat) (s : string) :
  split_from sep skip s <> [].
Proof.
  revert skip. induction s as [| c s IH]; intros skip; cbn [split_from].
  - discriminate.
  - destruct skip as [| k]; [| apply IH].
    destruct (prefix sep (String c s)); [discriminate |].
    destruct (split_from sep 0 s); discriminate.
Qed.

Lemma split_from_jump (sep q rest : string) :
  split_from sep (String.length q) (q ++ rest) = split_from sep 0 rest.
Proof. induction q as [| c q IH]; [reflexivity | exact IH]. Qed.

(** Where the separator starts, a piece ends and the scan resumes after
    the separator. *)
Lemma split_at_sep (sep rest : string) :
  sep <> EmptyString ->
  split sep (sep ++ rest) = EmptyString :: split sep rest.
Proof.
  intros Hne. destruct sep as [| c0 sep']; [contradiction Hne; reflexivity |].
  unfold split. change ((String c0 sep' ++ rest)%string)
    with (String c0 (sep' ++ rest)).
  cbn [split_from].
  replace (prefix (String c0 sep') (String c0 (sep' ++ rest))) with true
    by (symmetry; apply prefix_app; exists rest; reflexivity).
  cbn [String.length]. rewrite Nat.sub_succ, Nat.sub_0_r, split_from_jump.
  reflexivity.
Qed.

Lemma split_no_sep (sep : string) (c : ascii) (s : string) :
  prefix sep (String c s) = false ->
  split sep (String c s)
  = match split sep s with
    | piece :: pieces => String c piece :: pieces
    | [] => [String c EmptyString]
    end.
Proof. intros H. unfold split. cbn [split_from]. rewrite H. reflexivity. Qed.

Lemma join_cons_char (sep : string) (c : ascii) (piece : string)
  (pieces : list string) :
  join sep (String c piece :: pieces) = String c (join sep (piece :: pieces)).
Proof. destruct pieces; reflexivity. Qed.

Lemma append_assoc (a b c : string) :
  ((a ++ b) ++ c)%string = (a ++ b ++ c)%string.
Proof. induction a as [| x a IH]; simpl; [reflexivity | rewrite IH; reflexivity]. Qed.

Lemma length_append (a b : string) :
  String.length (a ++ b) = String.length a + String.length b.
Proof. induction a as [| c a IH]; simpl; [reflexivity | rewrite IH; reflexivity]. Qed.

(** Joining the pieces with the separator gives the text back. *)
Lemma join_split (sep s : string) :
  sep <> EmptyString -> join sep (split sep s) = s.
Proof.
  intros Hne.
  assert (forall n s, String.length s <= n -> join sep (split sep s) = s) as H.
  { induction n as [| n IH]; intros t Ht.
    - destruct t; [reflexivity | simpl in Ht; lia].
    - destruct t as [| c t]; [reflexivity |].
      destruct (prefix sep (String c t)) eqn:Hp.
      + apply prefix_app in Hp. destruct Hp as [rest Hrest].
        rewrite Hrest, split_at_sep by exact Hne.
        assert (String.length rest <= n) as Hlen.
        { apply (f_equal String.length) in Hrest.
          rewrite length_append in Hrest. simpl in Ht, Hrest.
          destruct sep; [contradiction Hne; reflexivity | simpl in Hrest; lia]. }
        specialize (IH rest Hlen).
        destruct (split sep rest) as [| p ps] eqn:Hs;
          [exfalso; exact (split_from_nonempty sep 0 rest Hs) |].
        change (join sep (EmptyString :: p :: ps))
          with (EmptyString ++ sep ++ join sep (p :: ps))%string.
        rewrite IH. reflexivity.
      + rewrite split_no_sep by exact Hp.
        assert (String.length t <= n) as Hlen by (simpl in Ht; lia).
        specialize (IH t Hlen).
        destruct (split sep t) as [| p ps] eqn:Hs;
          [exfalso; exact (split_from_nonempty sep 0 t Hs) |].
        rewrite join_cons_char, IH. reflexivity. }
  exact (H (String.length s) s (Nat.le_refl _)).
Qed.

(** ** Pieces between separators *)

Lemma no_occurrence (sep p : string) :
  contains sep p = false -> ~ occurs_in sep p.
Proof. intros H Ho. apply contains_occurs in Ho. congruence. Qed.




(** The pieces [split] returns are pieces between separators. *)
Lemma split_splits (sep s : string) :
  sep <> EmptyString -> splits_into sep s (split sep s).
Proof.
  intros Hne.
  assert (~ occurs_in sep EmptyString) as Hempty.
  { apply no_occurrence. destruct sep; [contradiction Hne |]; reflexivity. }
  assert (forall n s, String.length s <= n -> splits_into sep s (split sep s))
    as H.
  { induction n as [| n IH]; intros t Ht.
    - destruct t; [| simpl in Ht; lia]. apply splits_last, Hempty.
    - destruct t as [| c t]; [apply splits_last, Hempty |].
      destruct (prefix sep (String c t)) eqn:Hp.
      + apply prefix_app in Hp. destruct Hp as [rest Hrest].
        rewrite Hrest, split_at_sep by exact Hne.
        assert (String.length rest <= n) as Hlen.
        { apply (f_equal String.length) in Hrest.
          rewrite length_append in Hrest. simpl in Ht, Hrest.
          destruct sep; [contradiction Hne; reflexivity | simpl in Hrest; lia]. }
        apply (splits_more sep EmptyString rest); [exact Hempty |].
        apply IH, Hlen.
      + rewrite split_no_sep by exact Hp.
        assert (String.length t <= n) as Hlen by (simpl in Ht; lia).
        specialize (IH t Hlen).
        assert (forall p, ~ occurs_in sep p ->
                  (forall b, String c p <> (sep ++ b)%string) ->
                  ~ occurs_in sep (String c p)) as Hcons.
        { intros p Hpno Hpre Ho. apply contains_occurs in Ho.
          rewrite contains_unfold in Ho. apply orb_true_iff in Ho.
          destruct Ho as [Ho | Ho].
          - apply prefix_app in Ho. destruct Ho as [b Hb]. exact (Hpre b Hb).
          - apply Hpno, contains_occurs, Ho. }
        inversion IH as [p Hpno Ht1 Hs | p rest pieces Hpno Hrest Ht1 Hs].
        * subst p. apply splits_last. apply Hcons; [exact Hpno |].
          intros b Hb. rewrite (proj2 (prefix_app sep (String c t))) in Hp;
            [discriminate Hp | exists b; exact Hb].
        * apply (splits_more sep (String c p) rest pieces); [| exact Hrest].
          apply Hcons; [exact Hpno |]. intros b Hb.
          rewrite (proj2 (prefix_app sep (String c t))) in Hp;
            [discriminate Hp |].
          exists (b ++ sep ++ rest)%string. rewrite <- Ht1.
          change (String c (p ++ sep ++ rest))
            with (String c p ++ sep ++ rest)%string.
          rewrite Hb. apply append_assoc. }
  exact (H (String.length s) s (Nat.le_refl _)).
Qed.


End PyStrFacts.

(* ===================================================================== *)
(** * The loader *)
(* ===================================================================== *)

Module Loader.

(** The only exception the lambda of lines 21-22 can raise. *)
Lemma derive_raises (unit : string) (d : option string) (e : exn) :
  derive unit d = Raise e -> e = AttributeError.
Proof.
  unfold derive. destruct d as [s |]; [| discriminate].
  destruct (PyStr.contains unit s); [| discriminate].
  destruct (PyStr.re_search_digits s); [discriminate |].
  intros H. injection H as <-. reflexivity.
Qed.

Lemma column_raises (unit : string) (col : list (option string)) (e : exn) :
  series_apply (derive unit) col = Raise e -> e = AttributeError.
Proof.
  induction col as [| d rest IH]; simpl; [discriminate |].
  destruct (derive unit d) as [v | e'] eqn:Hd; simpl.
  - destruct (series_apply (derive unit) rest) as [vs | e'']; simpl.
    + discriminate.
    + intros H. injection H as <-. apply IH. reflexivity.
  - intros H. injection H as <-. exact (derive_raises _ _ _ Hd).
Qed.

(** Computing the two columns one after the other, or the two cells of
    each row in turn, is the same: same table, or the same exception. *)
Lemma load_data_by_rows (csv : list csv_row) :
  load_data csv = series_apply load_row csv.
Proof.
  induction csv as [| r csv IH]; [reflexivity |].
  unfold load_data in *. cbn [map series_apply]. unfold load_row at 1.
  destruct (derive "min" (csv_duration r)) as [m | e] eqn:Hm; simpl;
    [| reflexivity].
  destruct (series_apply (derive "min") (map csv_duration csv))
    as [ms | e] eqn:Hms; simpl in *.
  - destruct (derive "Season" (csv_duration r)) as [s | e] eqn:Hs; simpl;
      [| reflexivity].
    destruct (series_apply (derive "Season") (map csv_duration csv))
      as [ss | e] eqn:Hss; simpl in *; rewrite <- IH; reflexivity.
  - rewrite <- IH.
    destruct (derive "Season" (csv_duration r)) as [s | e'] eqn:Hs; simpl;
      [reflexivity |].
    rewrite (column_raises _ _ _ Hms), (derive_raises _ _ _ Hs). reflexivity.
Qed.

(** The cells [derive] computes, by what the duration text contains. *)
Lemma derive_null (unit : string) : derive unit None = Ok None.
Proof. reflexivity. Qed.

Lemma derive_no_unit (unit s : string) :
  PyStr.contains unit s = false -> derive unit (Some s) = Ok None.
Proof. intros H. unfold derive. rewrite H. reflexivity. Qed.

Lemma derive_unit (unit s : string) (v : option Z) :
  PyStr.contains unit s = true ->
  derive unit (Some s) = Ok v ->
  exists m, PyStr.re_search_digits s = Some m /\ v = Some (PyStr.int_of_digits m).
Proof.
  intros Hu. unfold derive. rewrite Hu.
  destruct (PyStr.re_search_digits s) as [m |]; [| discriminate].
  intros H. injection H as <-. exists m. split; reflexivity.
Qed.

(** A duration with a unit token and no digit makes the loader raise. *)
Lemma derive_unit_no_digit (unit s : string) :
  PyStr.contains unit s = true -> has_digit s = false ->
  derive unit (Some s) = Raise AttributeError.
Proof.
  intros Hu Hd. unfold derive. rewrite Hu.
  destruct (PyStr.re_search_digits s) as [m |] eqn:Hm; [| reflexivity].
  assert (has_digit s = true) as Hd'
    by (apply PyStrFacts.re_search_digits_some; exists m; exact Hm).
  congruence.
Qed.

(** A cell [derive] returns is non-null exactly for a text that contains
    the unit. *)
Lemma derive_nullness (unit : string) (d : option string) (v : option Z) :
  derive unit d = Ok v ->
  match d with
  | None => v = None
  | Some s => v <> None <-> occurs_in unit s
  end.
Proof.
  unfold derive. destruct d as [s |]; [| intros H; injection H as <-; reflexivity].
  rewrite <- PyStrFacts.contains_occurs.
  destruct (PyStr.contains unit s).
  - destruct (PyStr.re_search_digits s) as [m |]; [| discriminate].
    intros H. injection H as <-. split; [reflexivity | discriminate].
  - intros H. injection H as <-. split; [intros H; contradiction H; reflexivity
                                        | discriminate].
Qed.

Lemma load_row_units (c : csv_row) (r : row) :
  load_row c = Ok r -> duration r = csv_duration c /\ units_spec r.
Proof.
  unfold load_row. intros H.
  apply bind_ok in H. destruct H as (m & Hm & H).
  apply bind_ok in H. destruct H as (s & Hs & H).
  injection H as <-. split; [reflexivity |].
  unfold units_spec. cbn [duration duration_minutes num_seasons mk_row].
  apply derive_nullness in Hm. apply derive_nullness in Hs.
  destruct (csv_duration c) as [d |]; split; assumption.
Qed.

End Loader.

(* ===================================================================== *)
(** * The filters as row predicates *)
(* ===================================================================== *)

Module Filters.

Lemma getitem_map (p : row -> bool) (f : table) :
  getitem f (map p f) = filter p f.
Proof.
  induction f as [| r f IH]; simpl; [reflexivity |].
  rewrite IH. reflexivity.
Qed.

Lemma select_pure (p : row -> bool) (mask : table -> result (list bool))
  (f : table) :
  mask f = Ok (map p f) -> select mask f = Ok (filter p f).
Proof.
  intros H. unfold select. rewrite H. simpl. rewrite getitem_map. reflexivity.
Qed.

Lemma filter_and {A : Type} (p q : A -> bool) (l : list A) :
  filter q (filter p l) = filter (fun x => p x && q x) l.
Proof.
  induction l as [| x l IH]; simpl; [reflexivity |].
  destruct (p x); simpl; [destruct (q x) |]; rewrite IH; reflexivity.
Qed.

Lemma filter_all {A : Type} (p : A -> bool) (l : list A) :
  (forall x, In x l -> p x = true) -> filter p l = l.
Proof.
  induction l as [| x l IH]; simpl; intros H; [reflexivity |].
  rewrite (H x (or_introl eq_refl)). f_equal. apply IH.
  intros y Hy. apply H. right. exact Hy.
Qed.

Lemma filter_idem {A : Type} (p : A -> bool) (l : list A) :
  filter p (filter p l) = filter p l.
Proof.
  apply filter_all. intros x Hx. apply filter_In in Hx. apply Hx.
Qed.

Lemma filter_subseq {A : Type} (p : A -> bool) (l : list A) :
  subseq (filter p l) l.
Proof.
  induction l as [| x l IH]; simpl; [constructor |].
  destruct (p x); constructor; exact IH.
Qed.

Lemma and_mask_map {A : Type} (p q : A -> bool) (l : list A) :
  and_mask (map p l) (map q l) = map (fun x => p x && q x) l.
Proof.
  induction l as [| x l IH]; simpl; [reflexivity |].
  rewrite IH. reflexivity.
Qed.

Lemma mem_In (v : string) (values : list string) :
  mem v values = true <-> In v values.
Proof.
  unfold mem. rewrite existsb_exists. split.
  - intros (w & Hw & E). apply String.eqb_eq in E. subst w. exact Hw.
  - intros H. exists v. split; [exact H | apply String.eqb_refl].
Qed.

(** ** Line 36 *)

Lemma type_filter_rows (types : list string) (df : table) :
  type_filter types df = Ok (filter (keeps_type types) df).
Proof.
  apply select_pure. unfold type_mask, isin. rewrite map_map. reflexivity.
Qed.

Lemma In_unique (v : string) (col : list string) :
  In v (unique col) <-> In v col.
Proof.
  induction col as [| w col IH]; simpl; [reflexivity |].
  rewrite filter_In, IH. split.
  - intros [H | [H _]]; [left | right]; exact H.
  - intros [H | H]; [left; exact H |].
    destruct (String.eqb_spec v w) as [-> | Hne]; [left; reflexivity |].
    right. split; [exact H | reflexivity].
Qed.

(** ** Lines 37-39 and 40-42 *)

Lemma any_in_cell (tokens : list string) (x : string) :
  any_in tokens (Some x) = Ok (existsb (fun c => PyStr.contains c x) tokens).
Proof.
  induction tokens as [| c rest IH]; simpl; [reflexivity |].
  destruct (PyStr.contains c x); [reflexivity | exact IH].
Qed.

(** On a NaN cell the lambda raises as soon as there is a token to test. *)
Lemma any_in_nan (c : string) (rest : list string) :
  any_in (c :: rest) None = Raise TypeError.
Proof. reflexivity. Qed.

Section Tokens.

(** The column the tokens are searched in: [country] or [listed_in]. *)
Variable col : row -> option string.

(** After the [notna] selection the lambda meets no NaN and cannot raise. *)
Lemma apply_after_notna (tokens : list string) (f : table) :
  series_apply (any_in tokens) (map col (filter (notna_cell col) f))
  = Ok (map (any_cell col tokens) (filter (notna_cell col) f)).
Proof.
  induction f as [| r f IH]; [reflexivity |].
  cbn [filter]. destruct (notna_cell col r) eqn:Hn; [| exact IH].
  assert (exists x, col r = Some x) as [x Hx]
    by (unfold notna_cell in Hn; destruct (col r) as [x |];
        [exists x; reflexivity | discriminate Hn]).
  cbn [map series_apply]. rewrite Hx, any_in_cell. cbn [bind].
  rewrite IH. cbn [bind]. do 2 f_equal. unfold any_cell. rewrite Hx. reflexivity.
Qed.

Lemma token_selects (tokens : list string) (f : table) :
  tokens <> [] ->
  bind (select (fun f => Ok (notna (map col f))) f)
       (select (fun f => series_apply (any_in tokens) (map col f)))
  = Ok (filter (fun r => keeps_tokens tokens (col r)) f).
Proof.
  intros Hne.
  rewrite (select_pure (notna_cell col))
    by (unfold notna; rewrite map_map; reflexivity).
  cbn [bind].
  rewrite (select_pure (any_cell col tokens)) by apply apply_after_notna.
  rewrite filter_and. f_equal. apply filter_ext. intros r.
  unfold notna_cell, any_cell, keeps_tokens.
  destruct tokens as [| c rest]; [contradiction Hne; reflexivity |].
  destruct (col r); reflexivity.
Qed.

Lemma keeps_tokens_empty (f : table) :
  filter (fun r => keeps_tokens [] (col r)) f = f.
Proof. apply filter_all. reflexivity. Qed.

Lemma keeps_tokens_iff (tokens : list string) (r : row) :
  tokens <> [] ->
  (keeps_tokens tokens (col r) = true <->
   exists x, col r = Some x /\ exists c, In c tokens /\ occurs_in c x).
Proof.
  intros Hne. unfold keeps_tokens.
  destruct tokens as [| c0 rest]; [contradiction Hne; reflexivity |].
  destruct (col r) as [x |].
  - rewrite existsb_exists. split.
    + intros (c & Hc & E). exists x. split; [reflexivity |].
      exists c. split; [exact Hc | apply PyStrFacts.contains_occurs; exact E].
    + intros (y & Hy & c & Hc & E). injection Hy as <-.
      exists c. split; [exact Hc | apply PyStrFacts.contains_occurs; exact E].
  - split; [discriminate |]. intros (y & Hy & _). discriminate Hy.
Qed.

End Tokens.

Lemma country_filter_rows (countries : list string) (f : table) :
  country_filter countries f
  = Ok (filter (fun r => keeps_tokens countries (country r)) f).
Proof.
  unfold country_filter. destruct countries as [| c rest].
  - simpl truthy. cbv iota. rewrite keeps_tokens_empty. reflexivity.
  - apply (token_selects country). discriminate.
Qed.

Lemma genre_filter_rows (genres : list string) (f : table) :
  genre_filter genres f
  = Ok (filter (fun r => keeps_tokens genres (listed_in r)) f).
Proof.
  unfold genre_filter. destruct genres as [| g rest].
  - simpl truthy. cbv iota. rewrite keeps_tokens_empty. reflexivity.
  - apply (token_selects listed_in). discriminate.
Qed.

(** ** Lines 43-44 *)

Lemma rating_filter_rows (ratings : list string) (f : table) :
  rating_filter ratings f = Ok (filter (keeps_rating ratings) f).
Proof.
  unfold rating_filter. destruct ratings as [| v rest].
  - simpl truthy. cbv iota. rewrite filter_all; reflexivity.
  - simpl truthy. cbv iota. apply select_pure.
    unfold rating_mask, isin_na. rewrite map_map. reflexivity.
Qed.

(** ** Line 45 *)

Lemma year_filter_rows (range : Z * Z) (f : table) :
  year_filter range f = Ok (filter (keeps_year range) f).
Proof.
  apply select_pure. unfold year_mask, ge_mask, le_mask.
  rewrite !map_map, and_mask_map. reflexivity.
Qed.

(** ** Lines 36-45 on frames *)

Lemma by_mask_pure (p : row -> bool) (mask : table -> result (list bool))
  (f : table) :
  mask f = Ok (map p f) -> by_mask mask f = Ok (Frame (filter p f)).
Proof.
  intros H. unfold by_mask. rewrite H. cbn [bind]. rewrite getitem_map.
  reflexivity.
Qed.

Lemma getitem_applied_map (p : row -> bool) (f : table) :
  getitem_applied f (map p f)
  = if is_nil f then Bare else Frame (filter p f).
Proof.
  destruct f as [| r f]; [reflexivity |].
  unfold getitem_applied. cbn [map is_nil].
  rewrite <- (getitem_map p (r :: f)). reflexivity.
Qed.

Section TokenLines.

Variable col : row -> option string.

(** Lines 38-39 (or 41-42) on a frame that has its columns: the rows that
    pass, unless no row has a value in the column; then the frame loses
    its columns. *)
Lemma token_lines_frame (tokens : list string) (f : table) :
  tokens <> [] ->
  bind (with_columns (Frame f) (by_mask (fun f => Ok (notna (map col f)))))
       (fun fr1 =>
          with_columns fr1
            (by_applied (fun f => series_apply (any_in tokens) (map col f))))
  = Ok (if is_nil (filter (notna_cell col) f)
        then Bare
        else Frame (filter (fun r => keeps_tokens tokens (col r)) f)).
Proof.
  intros Hne. cbn [with_columns].
  rewrite (by_mask_pure (notna_cell col))
    by (unfold notna; rewrite map_map; reflexivity).
  cbn [bind with_columns]. unfold by_applied.
  rewrite apply_after_notna. cbn [bind]. rewrite getitem_applied_map.
  destruct (is_nil (filter (notna_cell col) f)); [reflexivity |].
  rewrite filter_and. do 2 f_equal. apply filter_ext. intros r.
  unfold notna_cell, any_cell, keeps_tokens.
  destruct tokens as [| c rest]; [contradiction Hne; reflexivity |].
  destruct (col r); reflexivity.
Qed.

End TokenLines.

Lemma country_lines_frame (countries : list string) (f : table) :
  country_lines countries (Frame f)
  = Ok (if truthy countries && is_nil (filter (notna_cell country) f)
        then Bare
        else Frame (filter (fun r => keeps_tokens countries (country r)) f)).
Proof.
  unfold country_lines. destruct countries as [| c rest].
  - cbn [truthy andb]. rewrite keeps_tokens_empty. reflexivity.
  - cbn [truthy andb]. apply (token_lines_frame country). discriminate.
Qed.

Lemma genre_lines_frame (genres : list string) (f : table) :
  genre_lines genres (Frame f)
  = Ok (if truthy genres && is_nil (filter (notna_cell listed_in) f)
        then Bare
        else Frame (filter (fun r => keeps_tokens genres (listed_in r)) f)).
Proof.
  unfold genre_lines. destruct genres as [| g rest].
  - cbn [truthy andb]. rewrite keeps_tokens_empty. reflexivity.
  - cbn [truthy andb]. apply (token_lines_frame listed_in). discriminate.
Qed.

Lemma rating_lines_frame (ratings : list string) (f : table) :
  rating_lines ratings (Frame f) = Ok (Frame (filter (keeps_rating ratings) f)).
Proof.
  unfold rating_lines. destruct ratings as [| v rest].
  - cbn [truthy]. rewrite filter_all; reflexivity.
  - cbn [truthy with_columns]. apply by_mask_pure.
    unfold rating_mask, isin_na. rewrite map_map. reflexivity.
Qed.

Lemma year_line_frame (range : Z * Z) (f : table) :
  year_line range (Frame f) = Ok (Frame (filter (keeps_year range) f)).
Proof.
  unfold year_line. cbn [with_columns]. apply by_mask_pure.
  unfold year_mask, ge_mask, le_mask. rewrite !map_map, and_mask_map.
  reflexivity.
Qed.

(** Once the columns are lost, line 45 at the latest raises. *)
Lemma bare_raises (genres ratings : list string) (range : Z * Z) :
  bind (genre_lines genres Bare)
       (fun fr3 => bind (rating_lines ratings fr3)
                     (fun fr4 => bind (year_line range fr4) rows_of))
  = Raise KeyError.
Proof.
  unfold genre_lines, rating_lines. destruct (truthy genres); [reflexivity |].
  cbn [bind]. destruct (truthy ratings); reflexivity.
Qed.

(** ** Lines 36-45: [KeyError] when a frame loses its columns, else the
    rows that pass every test *)

Lemma filtered_df_cases (sel : selection) (df : table) :
  filtered_df sel df
  = if loses_columns sel df
    then Raise KeyError
    else Ok (filter (keeps sel) df).
Proof.
  unfold filtered_df, loses_columns.
  rewrite (by_mask_pure (keeps_type (types sel)))
    by (unfold type_mask, isin; rewrite map_map; reflexivity).
  cbn [bind]. set (f1 := filter (keeps_type (types sel)) df).
  rewrite country_lines_frame. cbn [bind].
  destruct (truthy (countries sel) && is_nil (filter (notna_cell country) f1));
    [cbn [orb]; apply bare_raises |].
  cbn [orb]. rewrite genre_lines_frame. cbn [bind].
  set (f2 := filter (fun r => keeps_tokens (countries sel) (country r)) f1).
  destruct (truthy (genres sel) && is_nil (filter (notna_cell listed_in) f2)).
  - unfold rating_lines. destruct (truthy (ratings sel)); reflexivity.
  - rewrite rating_lines_frame. cbn [bind]. rewrite year_line_frame.
    cbn [bind rows_of with_columns]. unfold f2, f1. rewrite !filter_and.
    f_equal. apply filter_ext. intros r. unfold keeps.
    rewrite !andb_assoc. reflexivity.
Qed.

Lemma filtered_df_ok (sel : selection) (df out : table) :
  filtered_df sel df = Ok out ->
  loses_columns sel df = false /\ out = filter (keeps sel) df.
Proof.
  rewrite filtered_df_cases. destruct (loses_columns sel df); [discriminate |].
  intros H. injection H as <-. split; reflexivity.
Qed.

Lemma filter_none {A : Type} (p : A -> bool) (l : list A) :
  is_nil (filter p l) = true <-> forall x, In x l -> p x = false.
Proof.
  induction l as [| x l IH]; simpl.
  - split; [intros _ y [] | reflexivity].
  - destruct (p x) eqn:Hp; simpl.
    + split; [discriminate |]. intros H.
      specialize (H x (or_introl eq_refl)). congruence.
    + rewrite IH. split.
      * intros H y [<- | Hy]; [exact Hp | exact (H y Hy)].
      * intros H y Hy. apply H. right. exact Hy.
Qed.

Lemma filter_some {A : Type} (p : A -> bool) (l : list A) :
  is_nil (filter p l) = false <-> exists x, In x l /\ p x = true.
Proof.
  induction l as [| x l IH]; simpl.
  - split; [discriminate | intros (y & [] & _)].
  - destruct (p x) eqn:Hp; simpl.
    + split; [intros _; exists x; auto | reflexivity].
    + rewrite IH. split.
      * intros (y & Hy & Hpy). exists y. auto.
      * intros (y & [<- | Hy] & Hpy); [congruence | exists y; auto].
Qed.

Lemma truthy_nonempty {A : Type} (xs : list A) : truthy xs = true <-> xs <> [].
Proof. destruct xs; simpl; split; congruence. Qed.

(** With no country and no genre chosen, lines 39 and 42 do not run. *)
Lemma loses_columns_no_tokens (sel : selection) (df : table) :
  countries sel = [] -> genres sel = [] -> loses_columns sel df = false.
Proof. unfold loses_columns. intros -> ->. reflexivity. Qed.

(** On a table that lines 36-45 returned, the same selection loses the
    columns exactly when the table is empty and line 39 or 42 runs. *)
Lemma loses_columns_filtered (sel : selection) (df : table) :
  loses_columns sel (filter (keeps sel) df)
  = is_nil (filter (keeps sel) df)
    && (truthy (countries sel) || truthy (genres sel)).
Proof.
  set (out := filter (keeps sel) df).
  assert (forall r, In r out -> keeps sel r = true) as Hk
    by (intros r Hr; apply filter_In in Hr; apply Hr).
  unfold loses_columns.
  assert (filter (keeps_type (types sel)) out = out) as ->.
  { apply filter_all. intros r Hr. specialize (Hk r Hr). unfold keeps in Hk.
    rewrite !andb_true_iff in Hk. tauto. }
  assert (filter (fun r => keeps_tokens (countries sel) (country r)) out = out)
    as ->.
  { apply filter_all. intros r Hr. specialize (Hk r Hr). unfold keeps in Hk.
    rewrite !andb_true_iff in Hk. tauto. }
  assert (truthy (countries sel) = true ->
          filter (notna_cell country) out = out) as Hcs.
  { intros Hc. apply filter_all. intros r Hr. specialize (Hk r Hr).
    unfold keeps in Hk. rewrite !andb_true_iff in Hk.
    destruct Hk as [[[[_ Hk] _] _] _].
    unfold keeps_tokens in Hk. unfold notna_cell.
    destruct (countries sel); [discriminate Hc |].
    destruct (country r); [reflexivity | discriminate Hk]. }
  assert (truthy (genres sel) = true ->
          filter (notna_cell listed_in) out = out) as Hgs.
  { intros Hg. apply filter_all. intros r Hr. specialize (Hk r Hr).
    unfold keeps in Hk. rewrite !andb_true_iff in Hk.
    destruct Hk as [[[_ Hk] _] _].
    unfold keeps_tokens in Hk. unfold notna_cell.
    destruct (genres sel); [discriminate Hg |].
    destruct (listed_in r); [reflexivity | discriminate Hk]. }
  destruct (truthy (countries sel)); [rewrite (Hcs eq_refl) |];
    (destruct (truthy (genres sel)); [rewrite (Hgs eq_refl) |]);
    destruct (is_nil out); reflexivity.
Qed.

End Filters.

(* ===================================================================== *)
(** * The filter statements over the store *)
(* ===================================================================== *)

Module ScriptFacts.
Import Script.

Lemma extends_refl (st : state) : extends st st.
Proof. split; [reflexivity | exists []; symmetry; apply app_nil_r]. Qed.

Lemma extends_trans (a b c : state) : extends a b -> extends b c -> extends a c.
Proof.
  intros [Hv [f Hf]] [Hv' [f' Hf']]. split; [congruence |].
  exists (f ++ f'). rewrite Hf', Hf, app_assoc. reflexivity.
Qed.

Lemma deref_old (st st' : state) (l : loc) (fr : frame) :
  extends st st' -> deref st l = Ok fr -> deref st' l = Ok fr.
Proof.
  unfold deref. intros [_ [fresh Hh]] H. rewrite Hh.
  destruct (nth_error (heap st) l) as [x |] eqn:Hx; [| discriminate H].
  rewrite nth_error_app1 by (apply nth_error_Some; congruence).
  rewrite Hx. exact H.
Qed.

(** One assignment [filtered_df = src[key]]: it binds [filtered_df] to a
    new object, or raises and changes nothing. *)
Lemma assign_filtered_runs (src : state -> loc) (index : table -> result frame)
  (st : state) (fr : frame) :
  deref st (src st) = Ok fr ->
  extends st (final_state (assign_filtered src index st))
  /\ match assign_filtered src index st with
     | Done st' =>
         exists fr', with_columns fr index = Ok fr'
                     /\ deref st' (v_filtered_df st') = Ok fr'
     | Raised e _ => with_columns fr index = Raise e
     end.
Proof.
  intros Hfr. unfold assign_filtered. rewrite Hfr. cbn [bind].
  destruct (with_columns fr index) as [fr' | e]; cbn [final_state].
  - split.
    + split; [reflexivity | exists [fr']; reflexivity].
    + exists fr'. split; [reflexivity |]. unfold deref. cbn [heap v_filtered_df].
      rewrite nth_error_app2, Nat.sub_diag by apply Nat.le_refl. reflexivity.
  - split; [apply extends_refl | reflexivity].
Qed.

Lemma tracks_assign (st0 : state) (index : table -> result frame) :
  tracks st0 (assign_filtered v_filtered_df index)
             (fun fr => with_columns fr index).
Proof.
  intros st fr E Hfr.
  destruct (assign_filtered_runs v_filtered_df index st fr Hfr) as [E' H].
  split; [exact (extends_trans _ _ _ E E') | exact H].
Qed.

Lemma tracks_seq (st0 : state) (p1 p2 : state -> outcome)
  (s1 s2 : frame -> result frame) :
  tracks st0 p1 s1 -> tracks st0 p2 s2 ->
  tracks st0 (fun st => and_then (p1 st) p2) (fun fr => bind (s1 fr) s2).
Proof.
  intros T1 T2 st fr E Hfr. destruct (T1 st fr E Hfr) as [E1 H1].
  destruct (p1 st) as [st1 | e st1]; cbn [and_then final_state] in *.
  - destruct H1 as (fr1 & -> & Hfr1). cbn [bind].
    exact (T2 st1 fr1 E1 Hfr1).
  - split; [exact E1 |]. rewrite H1. reflexivity.
Qed.

Lemma tracks_when (st0 : state) (b : bool) (p : state -> outcome)
  (s : frame -> result frame) :
  tracks st0 p s ->
  tracks st0 (when b p) (fun fr => if b then s fr else Ok fr).
Proof.
  intros T st fr E Hfr. unfold when. destruct b; [exact (T st fr E Hfr) |].
  split; [exact E |]. exists fr. split; [reflexivity | exact Hfr].
Qed.

(** Lines 37-45. *)
Lemma tracks_after_type (st0 : state) (sel : selection) :
  tracks st0
    (fun st1 =>
       and_then (when (truthy (countries sel))
                   (fun s => and_then
                      (assign_filtered v_filtered_df (by_mask country_notna_mask) s)
                      (assign_filtered v_filtered_df
                         (by_applied (country_mask (countries sel))))) st1)
         (fun st2 =>
       and_then (when (truthy (genres sel))
                   (fun s => and_then
                      (assign_filtered v_filtered_df (by_mask genre_notna_mask) s)
                      (assign_filtered v_filtered_df
                         (by_applied (genre_mask (genres sel))))) st2)
         (fun st3 =>
       and_then (when (truthy (ratings sel))
                   (assign_filtered v_filtered_df
                      (by_mask (rating_mask (ratings sel)))) st3)
         (assign_filtered v_filtered_df
            (by_mask (year_mask (year_range sel)))))))
    (fun fr1 =>
       (fr2 <- country_lines (countries sel) fr1 ;;
        fr3 <- genre_lines (genres sel) fr2 ;;
        fr4 <- rating_lines (ratings sel) fr3 ;;
        year_line (year_range sel) fr4)%result).
Proof.
  apply (tracks_seq st0 (when (truthy (countries sel)) _) _
           (country_lines (countries sel))).
  { apply (tracks_when st0 (truthy (countries sel)) _
             (fun fr => bind (with_columns fr (by_mask country_notna_mask))
                          (fun fr1 => with_columns fr1
                             (by_applied (country_mask (countries sel)))))).
    apply (tracks_seq st0 _ _ (fun fr => with_columns fr _)
             (fun fr => with_columns fr _)); apply tracks_assign. }
  apply (tracks_seq st0 (when (truthy (genres sel)) _) _
           (genre_lines (genres sel))).
  { apply (tracks_when st0 (truthy (genres sel)) _
             (fun fr => bind (with_columns fr (by_mask genre_notna_mask))
                          (fun fr1 => with_columns fr1
                             (by_applied (genre_mask (genres sel)))))).
    apply (tracks_seq st0 _ _ (fun fr => with_columns fr _)
             (fun fr => with_columns fr _)); apply tracks_assign. }
  apply (tracks_seq st0 (when (truthy (ratings sel)) _) _
           (rating_lines (ratings sel))).
  { apply (tracks_when st0 (truthy (ratings sel)) _
             (fun fr => with_columns fr (by_mask (rating_mask (ratings sel))))).
    apply tracks_assign. }
  apply tracks_assign.
Qed.

Lemma year_line_rows (range : Z * Z) (fr fr' : frame) :
  year_line range fr = Ok fr' -> exists out, fr' = Frame out.
Proof.
  destruct fr as [f |]; [| discriminate]. unfold year_line, by_mask, year_mask.
  cbn [with_columns bind]. intros H. injection H as <-. eexists. reflexivity.
Qed.

(** Lines 36-45 from any state in which [df] is bound to a frame that has
    its columns: the run ends with [filtered_df] bound to the table
    [filtered_df sel df] of the functional reading, or raises the
    exception that reading raises; either way the store only grew. *)
Lemma apply_filters_runs (sel : selection) (st : state) (df : table) :
  deref st (v_df st) = Ok (Frame df) ->
  extends st (final_state (apply_filters sel st))
  /\ match apply_filters sel st with
     | Done st' =>
         exists out, deref st' (v_filtered_df st') = Ok (Frame out)
                     /\ filtered_df sel df = Ok out
     | Raised e _ => filtered_df sel df = Raise e
     end.
Proof.
  intros Hdf. unfold apply_filters, filtered_df.
  destruct (assign_filtered_runs v_df (by_mask (type_mask (types sel))) st
              (Frame df) Hdf) as [E1 H1].
  destruct (assign_filtered v_df (by_mask (type_mask (types sel))) st)
    as [st1 | e st1]; cbn [and_then final_state] in *.
  - destruct H1 as (fr1 & Hfr1 & Hd1). cbn [with_columns] in Hfr1.
    rewrite Hfr1. cbn [bind].
    destruct (tracks_after_type st sel st1 fr1 E1 Hd1) as [E2 H2].
    split; [exact E2 |].
    match goal with
    | |- match ?o with _ => _ end => destruct o as [st' | e st']
    end.
    + destruct H2 as (fr5 & Hstep & Hd5).
      destruct (country_lines (countries sel) fr1) as [fr2 | e2];
        cbn [bind] in *; [| discriminate].
      destruct (genre_lines (genres sel) fr2) as [fr3 | e3];
        cbn [bind] in *; [| discriminate].
      destruct (rating_lines (ratings sel) fr3) as [fr4 | e4];
        cbn [bind] in *; [| discriminate].
      rewrite Hstep. cbn [bind].
      destruct (year_line_rows _ _ _ Hstep) as [out ->].
      exists out. split; [exact Hd5 | reflexivity].
    + destruct (country_lines (countries sel) fr1) as [fr2 | e2];
        cbn [bind] in *; [| congruence].
      destruct (genre_lines (genres sel) fr2) as [fr3 | e3];
        cbn [bind] in *; [| congruence].
      destruct (rating_lines (ratings sel) fr3) as [fr4 | e4];
        cbn [bind] in *; [| congruence].
      rewrite H2. reflexivity.
  - split; [exact E1 |]. cbn [with_columns] in H1. rewrite H1. reflexivity.
Qed.

End ScriptFacts.

(* ===================================================================== *)
(** * The aggregates *)
(* ===================================================================== *)

Module Aggregates.

(** ** Counting *)

Lemma tally_snoc (l : list string) (x : string) :
  tally (l ++ [x]) = bump x (tally l).
Proof. unfold tally. rewrite fold_left_app. reflexivity. Qed.

Lemma total_bump (k : string) (tab : list (string * nat)) :
  list_sum (map snd (bump k tab)) = S (list_sum (map snd tab)).
Proof.
  induction tab as [| [k' n] tab IH]; simpl; [reflexivity |].
  destruct (String.eqb k k'); simpl; [reflexivity |].
  rewrite IH. lia.
Qed.

Lemma total_tally (l : list string) :
  list_sum (map snd (tally l)) = List.length l.
Proof.
  induction l as [| x l IH] using rev_ind; [reflexivity |].
  rewrite tally_snoc, total_bump, IH, length_app. simpl. lia.
Qed.

Lemma mem_cons (v k : string) (u : list string) :
  mem v (k :: u) = String.eqb v k || mem v u.
Proof. reflexivity. Qed.

Lemma mem_false (v : string) (u : list string) :
  mem v u = false <-> ~ In v u.
Proof.
  rewrite <- Filters.mem_In. destruct (mem v u); split; congruence.
Qed.

Lemma mem_unique (v : string) (l : list string) :
  mem v (unique l) = mem v l.
Proof.
  destruct (mem v l) eqn:H.
  - apply Filters.mem_In, Filters.In_unique, Filters.mem_In, H.
  - apply mem_false. rewrite Filters.In_unique. apply mem_false, H.
Qed.

Lemma unique_snoc (p : list string) (x : string) :
  unique (p ++ [x]) = if mem x p then unique p else unique p ++ [x].
Proof.
  induction p as [| v p IH]; [reflexivity |].
  cbn [app unique]. rewrite IH, mem_cons.
  destruct (String.eqb_spec x v) as [-> | Hne]; cbn [orb].
  - destruct (mem v p); [reflexivity |].
    rewrite filter_app. cbn [filter]. rewrite String.eqb_refl. cbn [negb].
    rewrite app_nil_r. reflexivity.
  - destruct (mem x p); [reflexivity |].
    rewrite filter_app. cbn [filter].
    rewrite (proj2 (String.eqb_neq x v) Hne). reflexivity.
Qed.

Lemma NoDup_filter {A : Type} (p : A -> bool) (l : list A) :
  NoDup l -> NoDup (filter p l).
Proof.
  induction 1 as [| x l Hx Hl IH]; simpl; [constructor |].
  destruct (p x); [| exact IH].
  constructor; [| exact IH]. rewrite filter_In. tauto.
Qed.

Lemma NoDup_unique (l : list string) : NoDup (unique l).
Proof.
  induction l as [| v l IH]; simpl; constructor.
  - rewrite filter_In, String.eqb_refl. intros [_ H]. discriminate H.
  - apply NoDup_filter, IH.
Qed.

Lemma occurrences_snoc (k : string) (p : list string) (x : string) :
  occurrences k (p ++ [x])
  = if String.eqb k x then S (occurrences k p) else occurrences k p.
Proof.
  unfold occurrences. rewrite filter_app, length_app. cbn [filter].
  destruct (String.eqb k x); simpl; lia.
Qed.

Lemma occurrences_absent (k : string) (p : list string) :
  ~ In k p -> occurrences k p = 0.
Proof.
  unfold occurrences. induction p as [| v p IH]; simpl; intros H; [reflexivity |].
  destruct (String.eqb_spec k v) as [-> | Hne]; [tauto |].
  apply IH. tauto.
Qed.

Lemma occurrences_present (k : string) (p : list string) :
  In k p -> 0 < occurrences k p.
Proof.
  unfold occurrences. induction p as [| v p IH]; simpl; intros H; [contradiction |].
  destruct (String.eqb_spec k v) as [-> | Hne]; simpl; [lia |].
  apply IH. destruct H as [H | H]; [congruence | exact H].
Qed.

(** [bump] on a table of counts [g] over distinct keys [u]. *)
Lemma bump_counts (x : string) (g : string -> nat) (u : list string) :
  NoDup u -> (~ In x u -> g x = 0) ->
  bump x (map (fun k => (k, g k)) u)
  = map (fun k => (k, if String.eqb k x then S (g k) else g k))
        (if mem x u then u else u ++ [x]).
Proof.
  induction u as [| k u IH]; intros Hnd H0.
  - simpl. rewrite String.eqb_refl, (H0 (fun H : In x [] => H)). reflexivity.
  - inversion Hnd as [| ? ? Hk Hu]; subst.
    cbn [map bump]. rewrite mem_cons.
    destruct (String.eqb_spec x k) as [-> | Hne]; cbn [orb].
    + cbn [map]. rewrite String.eqb_refl. f_equal.
      apply map_ext_in. intros k' Hk'.
      destruct (String.eqb_spec k' k) as [-> | _]; [contradiction | reflexivity].
    + rewrite IH; [| exact Hu |
        intros Hx; apply H0; intros [E | E]; [congruence | contradiction]].
      replace (if mem x u then k :: u else (k :: u) ++ [x])
        with (k :: (if mem x u then u else u ++ [x]))
        by (destruct (mem x u); reflexivity).
      cbn [map].
      rewrite (proj2 (String.eqb_neq k x)) by congruence. reflexivity.
Qed.

(** The table of counts: one entry per value, in order of first
    appearance, with the number of its occurrences. *)
Lemma tally_counts (l : list string) :
  tally l = map (fun k => (k, occurrences k l)) (unique l).
Proof.
  induction l as [| x l IH] using rev_ind; [reflexivity |].
  rewrite tally_snoc, IH, bump_counts.
  - rewrite mem_unique, unique_snoc. apply map_ext. intros k.
    rewrite occurrences_snoc. reflexivity.
  - apply NoDup_unique.
  - rewrite Filters.In_unique. apply occurrences_absent.
Qed.

(** ** Order of first appearance *)

Lemma StronglySorted_filter {A : Type} (R : A -> A -> Prop) (p : A -> bool)
  (l : list A) :
  StronglySorted R l -> StronglySorted R (filter p l).
Proof.
  induction 1 as [| x l Hl IH Hx]; simpl; [constructor |].
  destruct (p x); [| exact IH].
  constructor; [exact IH |].
  rewrite Forall_forall in *. intros y Hy. apply Hx.
  apply filter_In in Hy. apply Hy.
Qed.

Lemma StronglySorted_on {A : Type} (R R' : A -> A -> Prop) (P : A -> Prop)
  (l : list A) :
  (forall a b, P a -> P b -> R a b -> R' a b) ->
  Forall P l -> StronglySorted R l -> StronglySorted R' l.
Proof.
  intros HR HP. induction 1 as [| x l Hl IH Hx]; [constructor |].
  inversion HP as [| ? ? Px Pl]; subst.
  constructor; [apply IH; exact Pl |].
  rewrite Forall_forall in *. intros y Hy.
  apply HR; [exact Px | apply Pl; exact Hy | apply Hx; exact Hy].
Qed.

Lemma StronglySorted_map {A B : Type} (R : B -> B -> Prop) (g : A -> B)
  (l : list A) :
  StronglySorted (fun a b => R (g a) (g b)) l -> StronglySorted R (map g l).
Proof.
  induction 1 as [| x l Hl IH Hx]; simpl; constructor; [exact IH |].
  rewrite Forall_forall in *. intros y Hy.
  apply in_map_iff in Hy. destruct Hy as (a & <- & Ha). apply Hx, Ha.
Qed.

Lemma firstn_In {A : Type} (n : nat) (l : list A) (y : A) :
  In y (firstn n l) -> In y l.
Proof.
  intros H. rewrite <- (firstn_skipn n l). apply in_or_app. left. exact H.
Qed.


Lemma first_seen_head (v : string) (l : list string) :
  first_seen v (v :: l) = 0.
Proof. simpl. rewrite String.eqb_refl. reflexivity. Qed.

Lemma first_seen_tail (k v : string) (l : list string) :
  k <> v -> first_seen k (v :: l) = S (first_seen k l).
Proof. intros H. simpl. rewrite (proj2 (String.eqb_neq k v) H). reflexivity. Qed.

(** [unique] lists the values in order of first appearance. *)
Lemma unique_first_seen (l : list string) :
  StronglySorted (seen_before l) (unique l).
Proof.
  induction l as [| v l IH]; simpl; constructor.
  - apply (StronglySorted_on (seen_before l) _ (fun k => k <> v)).
    + intros a b Ha Hb Hab. unfold seen_before in *.
      rewrite !first_seen_tail by assumption. lia.
    + apply Forall_forall. intros k Hk. apply filter_In in Hk.
      destruct Hk as [_ Hk]. apply negb_true_iff, String.eqb_neq in Hk. exact Hk.
    + apply StronglySorted_filter, IH.
  - apply Forall_forall. intros k Hk. apply filter_In in Hk.
    destruct Hk as [_ Hk]. apply negb_true_iff, String.eqb_neq in Hk.
    unfold seen_before. rewrite first_seen_head, first_seen_tail by exact Hk. lia.
Qed.

Lemma tally_first_seen (l : list string) :
  StronglySorted (fun x y => seen_before l (fst x) (fst y)) (tally l).
Proof.
  rewrite tally_counts. apply StronglySorted_map. exact (unique_first_seen l).
Qed.

Lemma tally_In (l : list string) (k : string) (n : nat) :
  In (k, n) (tally l) <-> In k l /\ n = occurrences k l.
Proof.
  rewrite tally_counts, in_map_iff. split.
  - intros (k' & E & Hk). injection E as -> <-.
    split; [apply Filters.In_unique; exact Hk | reflexivity].
  - intros [Hk ->]. exists k. split; [reflexivity | apply Filters.In_unique, Hk].
Qed.

(** ** The stable sort by decreasing count *)

Lemma insert_desc_In (x z : string * nat) (l : list (string * nat)) :
  In z (insert_desc x l) <-> z = x \/ In z l.
Proof.
  induction l as [| y l IH]; simpl.
  - split; intros [H | H]; auto.
  - destruct (snd x <? snd y)%nat; simpl; [rewrite IH |]; intuition auto.
Qed.

Lemma sort_desc_In (z : string * nat) (l : list (string * nat)) :
  In z (sort_desc l) <-> In z l.
Proof.
  induction l as [| x l IH]; simpl; [reflexivity |].
  rewrite insert_desc_In, IH. intuition auto.
Qed.

Lemma insert_desc_ranks (toks : list string) (x : string * nat)
  (l : list (string * nat)) :
  StronglySorted (ranks_before toks) l ->
  Forall (fun y => seen_before toks (fst x) (fst y)) l ->
  StronglySorted (ranks_before toks) (insert_desc x l).
Proof.
  induction 1 as [| y l Hl IH Hy]; intros Hx; simpl.
  - constructor; constructor.
  - inversion Hx as [| ? ? Hxy Hxl]; subst.
    destruct (Nat.ltb_spec (snd x) (snd y)) as [Hlt | Hge].
    + constructor; [apply IH; exact Hxl |].
      apply Forall_forall. intros z Hz. apply insert_desc_In in Hz.
      destruct Hz as [-> | Hz]; [left; exact Hlt |].
      rewrite Forall_forall in Hy. apply Hy, Hz.
    + constructor; [constructor; assumption |].
      assert (Forall (fun z => snd z <= snd x) (y :: l)) as Hle.
      { constructor; [exact Hge |]. rewrite Forall_forall in *.
        intros z Hz. destruct (Hy z Hz) as [H | [H _]]; lia. }
      rewrite Forall_forall in *. intros z Hz.
      specialize (Hle z Hz). specialize (Hx z Hz). unfold ranks_before.
      destruct (Nat.eq_dec (snd x) (snd z)) as [E | E]; [right; tauto | left; lia].
Qed.

(** A table in order of first appearance is sorted into a ranking: by
    decreasing count, values of equal count in order of first appearance. *)
Lemma sort_desc_ranks (toks : list string) (tab : list (string * nat)) :
  StronglySorted (fun x y => seen_before toks (fst x) (fst y)) tab ->
  StronglySorted (ranks_before toks) (sort_desc tab).
Proof.
  induction 1 as [| x tab Htab IH Hx]; simpl; [constructor |].
  apply insert_desc_ranks; [exact IH |].
  rewrite Forall_forall in *. intros y Hy. apply Hx, sort_desc_In, Hy.
Qed.

(** ** Sorts by decreasing count *)

Lemma insert_desc_perm (x : string * nat) (l : list (string * nat)) :
  Permutation (insert_desc x l) (x :: l).
Proof.
  induction l as [| y l IH]; simpl; [reflexivity |].
  destruct (snd x <? snd y)%nat; [| reflexivity].
  rewrite IH. apply perm_swap.
Qed.

Lemma insert_desc_sorted (x : string * nat) (l : list (string * nat)) :
  StronglySorted (fun a b => snd b <= snd a) l ->
  StronglySorted (fun a b => snd b <= snd a) (insert_desc x l).
Proof.
  induction 1 as [| y l Hl IH Hy]; simpl; [constructor; constructor |].
  destruct (Nat.ltb_spec (snd x) (snd y)) as [Hlt | Hge].
  - constructor; [exact IH |].
    apply Forall_forall. intros z Hz. apply insert_desc_In in Hz.
    destruct Hz as [-> | Hz]; [lia |].
    rewrite Forall_forall in Hy. apply Hy, Hz.
  - constructor; [constructor; assumption |].
    constructor; [exact Hge |].
    rewrite Forall_forall in *. intros z Hz. specialize (Hy z Hz). lia.
Qed.

Lemma sort_desc_sorts : sorts_by_count sort_desc.
Proof.
  intros tab. induction tab as [| x tab [IHp IHs]]; simpl.
  - split; constructor.
  - split.
    + rewrite insert_desc_perm. constructor. exact IHp.
    + apply insert_desc_sorted, IHs.
Qed.




(** ** What any sort by decreasing count gives on a table of counts *)







(** ** Line 71 *)

Lemma dropna_some_app (l : list string) (rest : list (option string)) :
  dropna (map Some l ++ rest) = l ++ dropna rest.
Proof.
  induction l as [| x l IH]; simpl; [reflexivity |]. rewrite IH. reflexivity.
Qed.

(** No list is empty after [str.split], so [explode] makes no NaN. *)
Lemma dropna_explode_split (sep : string) (col : list string) :
  dropna (explode (str_split sep col)) = concat (map (PyStr.split sep) col).
Proof.
  unfold str_split. induction col as [| s col IH]; [reflexivity |].
  cbn [map].
  destruct (PyStr.split sep s) as [| x xs] eqn:Hs.
  - exfalso. exact (PyStrFacts.split_from_nonempty sep 0 s Hs).
  - cbn [explode concat]. rewrite dropna_some_app, IH. reflexivity.
Qed.

Lemma top_countries_ranking (sort_values : sorter) (f : table) :
  top_countries sort_values f
  = firstn 10 (sort_values (tally (country_tokens f))).
Proof.
  unfold top_countries, head, value_counts, country_tokens.
  rewrite dropna_explode_split. reflexivity.
Qed.



(** Every column has its non-null texts, and every text its pieces. *)
Lemma texts_and_pieces (col : list (option string)) :
  exists texts pieces,
    map Some texts = filter has_value col
    /\ Forall2 (splits_into ", ") texts pieces.
Proof.
  exists (dropna col), (map (PyStr.split ", ") (dropna col)). split.
  - induction col as [| [x |] col IH]; cbn [dropna filter has_value map];
      [reflexivity | rewrite IH; reflexivity | exact IH].
  - induction (dropna col) as [| s texts IH]; constructor; [| exact IH].
    apply PyStrFacts.split_splits. discriminate.
Qed.


End Aggregates.

(* ===================================================================== *)
(** * Properties of the loader *)
(* ===================================================================== *)

Module LoaderProperties.

(** A row whose duration names a unit and has no digit stops the load. *)
Lemma load_data_stops (csv : list csv_row) (c : csv_row) (s unit : string) :
  In c csv -> csv_duration c = Some s ->
  unit = "min" \/ unit = "Season" ->
  PyStr.contains unit s = true -> has_digit s = false ->
  load_data csv = Raise AttributeError.
Proof.
  intros Hin Hs Hunit Hu Hd. rewrite Loader.load_data_by_rows.
  assert (load_row c = Raise AttributeError) as Hc.
  { unfold load_row. rewrite Hs. destruct Hunit as [-> | ->].
    - rewrite (Loader.derive_unit_no_digit _ _ Hu Hd). reflexivity.
    - destruct (derive "min" (Some s)) as [m | e] eqn:Hm; cbn [bind].
      + rewrite (Loader.derive_unit_no_digit _ _ Hu Hd). reflexivity.
      + rewrite (Loader.derive_raises _ _ _ Hm). reflexivity. }
  assert (forall e r, load_row r = Raise e -> e = AttributeError) as Hexn.
  { intros e r. unfold load_row.
    destruct (derive "min" (csv_duration r)) as [m | e1] eqn:Hm; simpl.
    - destruct (derive "Season" (csv_duration r)) as [x | e2] eqn:Hx; simpl;
        [discriminate |].
      intros H. injection H as <-. exact (Loader.derive_raises _ _ _ Hx).
    - intros H. injection H as <-. exact (Loader.derive_raises _ _ _ Hm). }
  induction csv as [| r csv IH]; [contradiction |].
  cbn [series_apply]. destruct Hin as [-> | Hin].
  - rewrite Hc. reflexivity.
  - destruct (load_row r) as [x | e] eqn:Hr; cbn [bind].
    + rewrite (IH Hin). reflexivity.
    + rewrite (Hexn _ _ Hr). reflexivity.
Qed.

(** C1 (the code departs from the claim).  The claim: deriving
    [duration_minutes] and [num_seasons] never raises, and a duration with
    no digit run gives two null fields.  The code: on the one-row table
    whose duration is the text "min" (a unit token, no digit),
    [re.search] finds nothing, [.group()] is called on [None], and
    [load_data] raises [AttributeError] instead of returning a row with
    two null fields. *)
Theorem load_data_raises_on_unit_without_number :
  load_data [csv_unit_only] = Raise AttributeError
  /\ csv_duration csv_unit_only = Some "min"
  /\ has_digit "min" = false.
Proof. repeat split. Qed.

Lemma load_data_rows (csv : list csv_row) (t : table) :
  load_data csv = Ok t -> Forall2 (fun c r => load_row c = Ok r) csv t.
Proof.
  rewrite Loader.load_data_by_rows. apply series_apply_cells.
Qed.

(** C3, against the claim as stated: the loader produces a record with
    both derived fields non-null, from a duration that names both units. *)
Lemma both_units_both_fields :
  load_data [csv_both_units]
  = Ok [mk_row csv_both_units (Some 1%Z) (Some 1%Z)]
  /\ duration_minutes (mk_row csv_both_units (Some 1%Z) (Some 1%Z)) <> None
  /\ num_seasons (mk_row csv_both_units (Some 1%Z) (Some 1%Z)) <> None.
Proof. repeat split; discriminate. Qed.

(** C3 (amended).  For every record the loader produces: both derived
    fields are null when [duration] is null; otherwise [duration_minutes]
    is non-null exactly when the duration text contains "min", and
    [num_seasons] is non-null exactly when it contains "Season".  So both
    fields are null for a text with neither token, exactly one is non-null
    for a text with exactly one of them, and the two fields are both
    non-null only for a duration that contains both tokens. *)
Theorem loader_units (csv : list csv_row) (t : table) :
  load_data csv = Ok t ->
  map duration t = map csv_duration csv
  /\ Forall units_spec t
  /\ Forall (fun r =>
       duration_minutes r <> None /\ num_seasons r <> None ->
       exists d, duration r = Some d
                 /\ occurs_in "min" d /\ occurs_in "Season" d) t.
Proof.
  intros H. apply load_data_rows in H.
  induction H as [| c r csv t Hr Hrest IH].
  - repeat split; constructor.
  - destruct IH as (IHd & IHu & IHb).
    destruct (Loader.load_row_units c r Hr) as [Hd Hu].
    split; [simpl; rewrite Hd, IHd; reflexivity |].
    split; constructor; try assumption.
    intros [Hm Hs]. unfold units_spec in Hu.
    destruct (duration r) as [d |]; [| destruct Hu; contradiction].
    exists d. split; [reflexivity |].
    split; [apply (proj1 Hu), Hm | apply (proj2 Hu), Hs].
Qed.

Lemma loader_units_sample :
  load_data [csv_movie; csv_show; csv_no_duration; csv_both_units]
  = Ok [movie_row; show_row; no_duration_row;
        mk_row csv_both_units (Some 1%Z) (Some 1%Z)]
  /\ Forall units_spec
       [movie_row; show_row; no_duration_row;
        mk_row csv_both_units (Some 1%Z) (Some 1%Z)].
Proof.
  split; [reflexivity |].
  apply (loader_units [csv_movie; csv_show; csv_no_duration; csv_both_units]).
  reflexivity.
Defined.

End LoaderProperties.

(* ===================================================================== *)
(** * Properties of the filters *)
(* ===================================================================== *)

Module FilterProperties.

(** C2, against the claim as stated: with no type chosen, the type filter
    keeps no row of a two-row table. *)
Lemma empty_type_selection_keeps_nothing :
  type_filter [] [movie_row; show_row] = Ok []
  /\ type_filter [] [movie_row; show_row] <> Ok [movie_row; show_row].
Proof. split; [reflexivity | discriminate]. Qed.

(** C2 (amended).  The type filter keeps exactly the rows whose type is
    one of the chosen values.  With no value chosen it keeps no row; it
    keeps every row when the selection is the widget's default, the list of
    all the type values of the table. *)
Theorem type_filter_membership (types : list string) (df : table) :
  type_filter types df = Ok (filter (keeps_type types) df)
  /\ (forall r, keeps_type types r = true <-> In (type r) types)
  /\ type_filter [] df = Ok []
  /\ type_filter (unique (map type df)) df = Ok df.
Proof.
  split; [apply Filters.type_filter_rows |].
  split; [intros r; apply Filters.mem_In |].
  split; rewrite Filters.type_filter_rows.
  - f_equal. induction df as [| r df IH]; [reflexivity | exact IH].
  - rewrite Filters.filter_all; [reflexivity |]. intros r Hr.
    apply Filters.mem_In, Filters.In_unique, in_map, Hr.
Qed.

(** C4.  With at least one country chosen, the country filter returns the
    rows of the table, in order, that pass this test: the [country] cell is
    not null and at least one chosen token occurs in its text as a
    substring. *)
Theorem country_filter_substring (countries : list string) (f : table) :
  countries <> [] ->
  country_filter countries f
  = Ok (filter (fun r => keeps_tokens countries (country r)) f)
  /\ forall r,
       keeps_tokens countries (country r) = true <->
       exists x, country r = Some x
                 /\ exists c, In c countries /\ occurs_in c x.
Proof.
  intros Hne. split; [apply Filters.country_filter_rows |].
  intros r. apply (Filters.keeps_tokens_iff country). exact Hne.
Qed.

(** Choosing "India" keeps both sample rows: the movie's cell is
    "United States, India".  Choosing "Ind" keeps them as well, a match on
    part of a name. *)
Lemma country_filter_sample :
  ["India"] <> []
  /\ country_filter ["India"] [movie_row; no_duration_row; show_row]
     = Ok [movie_row; show_row].
Proof.
  split; [discriminate |].
  destruct (country_filter_substring ["India"]
              [movie_row; no_duration_row; show_row]) as [H _];
    [discriminate |].
  rewrite H. reflexivity.
Defined.

Example country_filter_partial_name :
  country_filter ["Ind"] [movie_row; no_duration_row; show_row]
  = Ok [movie_row; show_row].
Proof. reflexivity. Qed.

(** C7.  With no rating chosen the rating filter returns its table
    unchanged.  With at least one chosen it returns the rows, in order,
    whose [rating] cell is not null and equal to one of the chosen
    values. *)
Theorem rating_filter_membership (ratings : list string) (f : table) :
  (ratings = [] -> rating_filter ratings f = Ok f)
  /\ (ratings <> [] ->
      rating_filter ratings f = Ok (filter (keeps_rating ratings) f)
      /\ forall r,
           keeps_rating ratings r = true <->
           exists v, rating r = Some v /\ In v ratings).
Proof.
  split.
  - intros ->. reflexivity.
  - intros Hne. split; [apply Filters.rating_filter_rows |].
    intros r. unfold keeps_rating.
    destruct ratings as [| v0 rest]; [contradiction Hne; reflexivity |].
    destruct (rating r) as [v |].
    + rewrite Filters.mem_In. split.
      * intros H. exists v. split; [reflexivity | exact H].
      * intros (w & E & H). injection E as <-. exact H.
    + split; [discriminate |]. intros (w & E & _). discriminate E.
Qed.

(** "PG" is no member of the selection ["PG-13"; "R"], although it is part
    of "PG-13": the movie is kept for its rating "PG-13" only. *)
Lemma rating_filter_sample :
  rating_filter [] [movie_row; no_duration_row; show_row]
  = Ok [movie_row; no_duration_row; show_row]
  /\ rating_filter ["PG-13"; "R"] [movie_row; no_duration_row; show_row]
     = Ok [movie_row]
  /\ rating_filter ["PG"] [movie_row; no_duration_row; show_row] = Ok [].
Proof.
  split.
  - apply (proj1 (rating_filter_membership []
                    [movie_row; no_duration_row; show_row])). reflexivity.
  - split; reflexivity.
Defined.

(** The genre filter is the country filter on the column [listed_in]. *)
Theorem genre_filter_substring (genres : list string) (f : table) :
  genres <> [] ->
  genre_filter genres f
  = Ok (filter (fun r => keeps_tokens genres (listed_in r)) f)
  /\ forall r,
       keeps_tokens genres (listed_in r) = true <->
       exists x, listed_in r = Some x
                 /\ exists g, In g genres /\ occurs_in g x.
Proof.
  intros Hne. split; [apply Filters.genre_filter_rows |].
  intros r. apply (Filters.keeps_tokens_iff listed_in). exact Hne.
Qed.

Lemma genre_filter_sample :
  ["Dramas"; "Comedies"] <> []
  /\ genre_filter ["Dramas"; "Comedies"] [movie_row; no_duration_row; show_row]
     = Ok [movie_row].
Proof.
  split; [discriminate |].
  destruct (genre_filter_substring ["Dramas"; "Comedies"]
              [movie_row; no_duration_row; show_row]) as [H _];
    [discriminate |].
  rewrite H. reflexivity.
Defined.

(** The release-year filter has no bypass: it keeps the rows whose year
    lies in the closed range, and no row when the range is empty. *)
Theorem year_filter_closed_range (range : Z * Z) (f : table) :
  year_filter range f = Ok (filter (keeps_year range) f)
  /\ (forall r, keeps_year range r = true <->
                (fst range <= release_year r <= snd range)%Z)
  /\ ((snd range < fst range)%Z -> year_filter range f = Ok []).
Proof.
  assert (forall r, keeps_year range r = true <->
                    (fst range <= release_year r <= snd range)%Z) as Hk.
  { intros r. unfold keeps_year.
    rewrite andb_true_iff, !Z.leb_le. reflexivity. }
  split; [apply Filters.year_filter_rows |]. split; [exact Hk |].
  intros Hempty. rewrite Filters.year_filter_rows. f_equal.
  induction f as [| r f IH]; [reflexivity |]. cbn [filter].
  destruct (keeps_year range r) eqn:Hr; [| exact IH].
  apply Hk in Hr. lia.
Qed.

Lemma year_filter_sample :
  (snd (2021, 2010) < fst (2021, 2010))%Z
  /\ year_filter (2021, 2010)%Z [movie_row; show_row] = Ok []
  /\ year_filter (2015, 2019)%Z [movie_row; no_duration_row; show_row]
     = Ok [movie_row; show_row].
Proof.
  split; [reflexivity |]. split.
  - apply (year_filter_closed_range (2021, 2010)%Z [movie_row; show_row]).
    reflexivity.
  - reflexivity.
Defined.

(** All the filters together.  Lines 36-45 raise [KeyError] exactly when
    line 39 or line 42 indexed an emptied frame: a country is chosen and no
    row of a chosen type has a country, or a genre is chosen and no row
    that passed the type and country tests has a genre.  Otherwise they
    return the rows that pass every test, in order. *)
Theorem filtered_df_conjunction (sel : selection) (df : table) :
  filtered_df sel df
  = (if loses_columns sel df
     then Raise KeyError
     else Ok (filter (keeps sel) df))
  /\ (loses_columns sel df = true <->
      (countries sel <> []
       /\ forall r, In r df -> In (type r) (types sel) -> country r = None)
      \/ (genres sel <> []
          /\ forall r, In r df -> In (type r) (types sel) ->
                       keeps_tokens (countries sel) (country r) = true ->
                       listed_in r = None))
  /\ forall r,
       keeps sel r = true <->
       keeps_type (types sel) r = true
       /\ keeps_tokens (countries sel) (country r) = true
       /\ keeps_tokens (genres sel) (listed_in r) = true
       /\ keeps_rating (ratings sel) r = true
       /\ keeps_year (year_range sel) r = true.
Proof.
  split; [apply Filters.filtered_df_cases |]. split.
  - unfold loses_columns.
    rewrite orb_true_iff, !andb_true_iff, !Filters.truthy_nonempty,
      !Filters.filter_none.
    assert (forall (P : row -> Prop) (q : row -> bool) (l : table),
              (forall r, In r l -> P r -> q r = false) <->
              (forall r, In r l -> P r -> q r <> true)) as Hneg.
    { intros P q l. split; intros H r Hr HP; specialize (H r Hr HP);
        destruct (q r); congruence. }
    split; (intros [[Hne H] | [Hne H]]; [left | right]; (split; [exact Hne |])).
    + intros r Hr Ht. specialize (H r).
      rewrite filter_In in H. unfold keeps_type, notna_cell in H.
      rewrite Filters.mem_In in H. specialize (H (conj Hr Ht)).
      destruct (country r); [discriminate H | reflexivity].
    + intros r Hr Ht Hc. specialize (H r).
      rewrite !filter_In in H. unfold keeps_type, notna_cell in H.
      rewrite Filters.mem_In in H. specialize (H (conj (conj Hr Ht) Hc)).
      destruct (listed_in r); [discriminate H | reflexivity].
    + intros r Hr. apply filter_In in Hr. destruct Hr as [Hr Ht].
      unfold keeps_type in Ht. apply Filters.mem_In in Ht.
      unfold notna_cell. rewrite (H r Hr Ht). reflexivity.
    + intros r Hr. apply filter_In in Hr. destruct Hr as [Hr Hc].
      apply filter_In in Hr. destruct Hr as [Hr Ht].
      unfold keeps_type in Ht. apply Filters.mem_In in Ht.
      unfold notna_cell. rewrite (H r Hr Ht Hc). reflexivity.
  - intros r. unfold keeps. rewrite !andb_true_iff. tauto.
Qed.

(** The scenario of the specification: choosing "India" and the years
    2010-2021 keeps both rows. *)
Example filtered_df_sample :
  filtered_df sample_selection [movie_row; show_row]
  = Ok [movie_row; show_row].
Proof. reflexivity. Qed.

(** Choosing a country when no row of the chosen type has one: line 38
    leaves an empty frame, line 39 drops its columns, line 45 raises. *)
Example filtered_df_raises_sample :
  filtered_df movies_from_india [no_duration_row; show_row] = Raise KeyError.
Proof. reflexivity. Qed.

(** C5 (the code departs from the claim).  The claim: filtering the
    filtered table again with the same selection returns the same rows.
    The code: for the types ["Movie"] and the countries ["India"] on the
    table of [classic_row] (a movie from France) and [show_row], the first
    pass returns the empty table; on that table the second pass reaches
    line 39 with an empty frame, [apply] returns an empty column that is
    not a boolean mask, the frame loses its columns and line 45 raises
    [KeyError]. *)
Theorem filtered_df_second_pass_raises :
  filtered_df movies_from_india [classic_row; show_row] = Ok []
  /\ filtered_df movies_from_india [] = Raise KeyError.
Proof. split; reflexivity. Qed.

(** The second pass in general: filtering a table that lines 36-45
    returned, with the same selection, returns it unchanged, except when
    it is empty and a country or a genre is chosen: then the second pass
    raises [KeyError]. *)
Theorem filtered_df_twice (sel : selection) (df out : table) :
  filtered_df sel df = Ok out ->
  filtered_df sel out
  = (if is_nil out && (truthy (countries sel) || truthy (genres sel))
     then Raise KeyError
     else Ok out).
Proof.
  intros H. apply Filters.filtered_df_ok in H. destruct H as [_ ->].
  rewrite Filters.filtered_df_cases, Filters.loses_columns_filtered,
    Filters.filter_idem.
  reflexivity.
Qed.

Lemma filtered_df_twice_sample :
  filtered_df sample_selection [movie_row; no_duration_row; show_row]
  = Ok [movie_row; show_row]
  /\ filtered_df sample_selection [movie_row; show_row]
     = Ok [movie_row; show_row].
Proof.
  split; [reflexivity |].
  exact (filtered_df_twice sample_selection
           [movie_row; no_duration_row; show_row] [movie_row; show_row]
           eq_refl).
Defined.

Lemma subseq_In {A : Type} (l1 l2 : list A) (x : A) :
  subseq l1 l2 -> In x l1 -> In x l2.
Proof.
  induction 1 as [| y l1 l2 H IH | y l1 l2 H IH]; simpl; intuition auto.
Qed.

Lemma subseq_nil_l {A : Type} (l : list A) : subseq [] l.
Proof. induction l; constructor; assumption. Qed.

(** An element of a subsequence splits the whole list around itself. *)
Lemma subseq_split {A : Type} (a b l : list A) (x : A) :
  subseq (a ++ x :: b) l ->
  exists a' b', l = a' ++ x :: b' /\ subseq a a' /\ subseq b b'.
Proof.
  intros H. remember (a ++ x :: b) as s eqn:Hs. revert a Hs.
  induction H as [| y l1 l2 H IH | y l1 l2 H IH]; intros a Hs.
  - destruct a; discriminate Hs.
  - destruct (IH a Hs) as (a' & b' & -> & Ha & Hb).
    exists (y :: a'), b'. repeat split; [constructor; exact Ha | exact Hb].
  - destruct a as [| z a]; simpl in Hs; injection Hs as -> ->.
    + exists [], l2. repeat split; [constructor | exact H].
    + destruct (IH a eq_refl) as (a' & b' & -> & Ha & Hb).
      exists (z :: a'), b'. repeat split; [constructor; exact Ha | exact Hb].
Qed.

(** C10.  The table lines 36-45 return is the input table with some rows
    removed: every row of the output is a row of the input, and two rows
    of the output stand in the input in the same order.  (A run that
    raises [KeyError] binds no filtered view.) *)
Theorem filtered_df_subsequence (sel : selection) (df out : table) :
  filtered_df sel df = Ok out ->
  subseq out df
  /\ (forall r, In r out -> In r df)
  /\ (forall a r1 b r2 c,
        out = a ++ r1 :: b ++ r2 :: c ->
        exists a' b' c', df = a' ++ r1 :: b' ++ r2 :: c').
Proof.
  intros H. apply Filters.filtered_df_ok in H. destruct H as [_ ->].
  pose proof (Filters.filter_subseq (keeps sel) df) as Hsub.
  split; [exact Hsub |].
  split; [intros r; apply subseq_In; exact Hsub |].
  intros a r1 b r2 c E. rewrite E in Hsub.
  destruct (subseq_split _ _ _ _ Hsub) as (a' & rest & -> & _ & Hrest).
  destruct (subseq_split _ _ _ _ Hrest) as (b' & c' & -> & _ & _).
  exists a', b', c'. reflexivity.
Qed.

Lemma filtered_df_subsequence_sample :
  filtered_df sample_selection [movie_row; no_duration_row; show_row]
  = Ok [movie_row; show_row]
  /\ subseq [movie_row; show_row] [movie_row; no_duration_row; show_row].
Proof.
  split; [reflexivity |].
  apply (filtered_df_subsequence sample_selection
           [movie_row; no_duration_row; show_row] [movie_row; show_row]
           eq_refl).
Defined.

(** C9.  Run from any state in which [df] is bound to a table, lines
    36-45 leave [df] bound to the same object and that object, like every
    object of the store, as it was, whether they end or raise.  When they
    end, the result is a new object bound to [filtered_df], the table of
    the functional reading; when they raise, it is with the exception of
    the functional reading. *)
Theorem filters_leave_df_unchanged (sel : selection) (st : Script.state)
  (df : table) :
  Script.deref st (Script.v_df st) = Ok (Frame df) ->
  Script.v_df (Script.final_state (Script.apply_filters sel st))
  = Script.v_df st
  /\ Script.deref (Script.final_state (Script.apply_filters sel st))
       (Script.v_df st) = Ok (Frame df)
  /\ (forall l fr,
        Script.deref st l = Ok fr ->
        Script.deref (Script.final_state (Script.apply_filters sel st)) l
        = Ok fr)
  /\ match Script.apply_filters sel st with
     | Script.Done st' =>
         exists out,
           Script.deref st' (Script.v_filtered_df st') = Ok (Frame out)
           /\ filtered_df sel df = Ok out
     | Script.Raised e _ => filtered_df sel df = Raise e
     end.
Proof.
  intros Hdf.
  destruct (ScriptFacts.apply_filters_runs sel st df Hdf) as [Hext Hrun].
  split; [exact (proj1 Hext) |].
  split; [exact (ScriptFacts.deref_old _ _ _ _ Hext Hdf) |].
  split; [intros l fr Hl; exact (ScriptFacts.deref_old _ _ _ _ Hext Hl) |].
  exact Hrun.
Qed.

Lemma filters_leave_df_unchanged_sample :
  Script.deref (Script.initial [movie_row; no_duration_row; show_row]) 0
  = Ok (Frame [movie_row; no_duration_row; show_row])
  /\ Script.deref
       (Script.final_state
          (Script.apply_filters sample_selection
             (Script.initial [movie_row; no_duration_row; show_row]))) 0
     = Ok (Frame [movie_row; no_duration_row; show_row]).
Proof.
  split; [reflexivity |].
  exact (proj1 (proj2 (filters_leave_df_unchanged sample_selection
                         (Script.initial [movie_row; no_duration_row; show_row])
                         [movie_row; no_duration_row; show_row] eq_refl))).
Defined.

(** A run that raises: [df] is still bound to the table, and no object
    was bound to [filtered_df] by the line that raised. *)
Example apply_filters_raises_sample :
  exists st',
    Script.apply_filters movies_from_india
      (Script.initial [no_duration_row; show_row])
    = Script.Raised KeyError st'
    /\ Script.deref st' (Script.v_df st')
       = Ok (Frame [no_duration_row; show_row]).
Proof. eexists. split; reflexivity. Qed.

End FilterProperties.

(* ===================================================================== *)
(** * Properties of the aggregates *)
(* ===================================================================== *)

Module AggregateProperties.




(** C8.  The heights of the bars of the count plot by type add up to the
    number of rows of the filtered table; each bar is a type value of the
    table with the number of rows of that type. *)
Theorem countplot_type_total (f : table) :
  list_sum (map snd (countplot_type f)) = n_titles f
  /\ forall k n, In (k, n) (countplot_type f) <->
                 In k (map type f) /\ n = occurrences k (map type f).
Proof.
  unfold countplot_type, n_titles. split.
  - rewrite Aggregates.total_tally. apply length_map.
  - intros k n. apply Aggregates.tally_In.
Qed.

Example countplot_type_sample :
  countplot_type [movie_row; show_row; no_duration_row]
  = [("Movie", 2); ("TV Show", 1)].
Proof. reflexivity. Qed.

End AggregateProperties.

(* ===================================================================== *)
(** * More on the loader *)
(* ===================================================================== *)

Module LoaderCases.

Lemma derive_cases (unit : string) (d : option string) :
  derive unit d
  = match d with
    | Some s =>
        if PyStr.contains unit s && negb (has_digit s)
        then Raise AttributeError
        else Ok (cell_of unit d)
    | None => Ok None
    end.
Proof.
  destruct d as [s |]; [| reflexivity]. unfold derive, cell_of.
  destruct (PyStr.contains unit s); [| reflexivity]. cbn [andb].
  destruct (PyStr.re_search_digits s) as [m |] eqn:Hm.
  - assert (has_digit s = true) as ->
      by (apply PyStrFacts.re_search_digits_some; exists m; exact Hm).
    reflexivity.
  - destruct (has_digit s) eqn:Hd; [| reflexivity].
    apply PyStrFacts.re_search_digits_some in Hd. destruct Hd as [m Hm'].
    congruence.
Qed.

(** ** Digits *)

Lemma is_digit_decimal (c : ascii) :
  PyStr.is_digit c = true <-> In c decimal_digits.
Proof.
  split.
  - destruct c as [[] [] [] [] [] [] [] []]; intros H; cbv in H;
      try discriminate H; cbv;
      repeat (first [left; reflexivity | right]).
  - intros H. cbv in H.
    repeat (destruct H as [<- | H]; [reflexivity |]). contradiction.
Qed.

Lemma has_digit_digitless (s : string) : has_digit s = false <-> digitless s.
Proof.
  unfold digitless. induction s as [| c s IH]; simpl.
  - split; [intros _ c [] | reflexivity].
  - rewrite orb_false_iff, IH. split.
    + intros [Hc Hs] c' [<- | Hin].
      * intros Hd. apply is_digit_decimal in Hd. congruence.
      * exact (Hs c' Hin).
    + intros H. split.
      * destruct (PyStr.is_digit c) eqn:Hc; [| reflexivity].
        exfalso. apply (H c (or_introl eq_refl)), is_digit_decimal, Hc.
      * intros c' Hin. apply H. right. exact Hin.
Qed.

(** The rows on which [load_row] raises, by the tests the lambda runs. *)
Lemma offending_tests (c : csv_row) :
  offending c <->
  exists s, csv_duration c = Some s
            /\ (PyStr.contains "min" s = true \/ PyStr.contains "Season" s = true)
            /\ has_digit s = false.
Proof.
  unfold offending.
  split; intros (s & Hs & Hu & Hd); exists s; (split; [exact Hs |]).
  - split; [| apply has_digit_digitless, Hd].
    destruct Hu as [Hu | Hu]; [left | right];
      apply PyStrFacts.contains_occurs, Hu.
  - split; [| apply has_digit_digitless, Hd].
    destruct Hu as [Hu | Hu]; [left | right];
      apply PyStrFacts.contains_occurs, Hu.
Qed.

Lemma load_row_ok (c : csv_row) (r : row) :
  load_row c = Ok r ->
  r = mk_row c (cell_of "min" (csv_duration c)) (cell_of "Season" (csv_duration c))
  /\ ~ offending c.
Proof.
  rewrite offending_tests.
  unfold load_row. rewrite !derive_cases.
  destruct (csv_duration c) as [s |] eqn:Hs.
  - destruct (PyStr.contains "min" s) eqn:Cm; cbn [andb];
      destruct (has_digit s) eqn:Hd; cbn [negb bind]; try discriminate;
      destruct (PyStr.contains "Season" s) eqn:Cs; cbn [andb negb bind];
      try discriminate; intros H; injection H as <-;
      (split; [reflexivity |]);
      intros (s' & E & Hu & Hd'); injection E as <-;
      destruct Hu; congruence.
  - cbn [bind]. intros H. injection H as <-. split; [reflexivity |].
    intros (s' & E & _). discriminate E.
Qed.

Lemma load_row_raise (c : csv_row) (e : exn) :
  load_row c = Raise e -> e = AttributeError /\ offending c.
Proof.
  rewrite offending_tests.
  unfold load_row. rewrite !derive_cases.
  destruct (csv_duration c) as [s |] eqn:Hs; [| discriminate].
  destruct (PyStr.contains "min" s) eqn:Cm; cbn [andb];
    destruct (has_digit s) eqn:Hd; cbn [negb bind];
    destruct (PyStr.contains "Season" s) eqn:Cs; cbn [andb negb bind];
    try discriminate; intros H; injection H as <-;
    (split; [reflexivity |]); exists s; repeat split; auto.
Qed.

Lemma load_row_total (c : csv_row) :
  (exists r, load_row c = Ok r) \/ load_row c = Raise AttributeError.
Proof.
  destruct (load_row c) as [r | e] eqn:H; [left; exists r; reflexivity |].
  right. destruct (load_row_raise c e H) as [-> _]. reflexivity.
Qed.

(** ** The digit run [re.search] finds *)

Lemma take_digits_split (s : string) :
  exists b, s = (PyStr.take_digits s ++ b)%string
            /\ all_digits (PyStr.take_digits s) = true
            /\ starts_with_digit b = false.
Proof.
  induction s as [| c s (b & Hs & Hd & Hb)]; simpl.
  - exists EmptyString. repeat split.
  - destruct (PyStr.is_digit c) eqn:Hc.
    + exists b. simpl. rewrite Hc, Hd, <- Hs. repeat split. exact Hb.
    + exists (String c s). simpl. rewrite Hc. repeat split.
Qed.

(** The match is the leftmost run of digits, taken to its end. *)
Lemma re_search_digits_run (s m : string) :
  PyStr.re_search_digits s = Some m ->
  exists a b, s = (a ++ m ++ b)%string
              /\ has_digit a = false
              /\ m <> EmptyString
              /\ all_digits m = true
              /\ starts_with_digit b = false.
Proof.
  revert m. induction s as [| c s IH]; intros m; [discriminate |].
  cbn [PyStr.re_search_digits]. destruct (PyStr.is_digit c) eqn:Hc.
  - intros H. injection H as <-.
    destruct (take_digits_split (String c s)) as (b & Hs & Hd & Hb).
    exists EmptyString, b. split; [exact Hs |]. split; [reflexivity |].
    split; [| split; [exact Hd | exact Hb]].
    cbn [PyStr.take_digits]. rewrite Hc. discriminate.
  - intros H. destruct (IH m H) as (a & b & -> & Ha & Hm & Hd & Hb).
    exists (String c a), b. split; [reflexivity |].
    split; [simpl; rewrite Hc; exact Ha |].
    split; [exact Hm |]. split; [exact Hd | exact Hb].
Qed.

Lemma re_search_digits_at (m rest : string) :
  m <> EmptyString -> all_digits m = true -> starts_with_digit rest = false ->
  PyStr.re_search_digits (m ++ rest) = Some m.
Proof.
  intros Hne Hd Hr. destruct m as [| c m]; [contradiction Hne; reflexivity |].
  simpl in Hd. apply andb_true_iff in Hd. destruct Hd as [Hc Hd].
  cbn [append PyStr.re_search_digits]. rewrite Hc. f_equal.
  change (String c (m ++ rest)) with ((String c m ++ rest)%string).
  assert (all_digits (String c m) = true) as Hall by (simpl; rewrite Hc; exact Hd).
  clear Hne Hc Hd. revert Hall. generalize (String c m) as ds. clear c m.
  induction ds as [| c ds IH]; simpl; intros Hall.
  - destruct rest as [| c rest]; [reflexivity |]. simpl in *. rewrite Hr. reflexivity.
  - apply andb_true_iff in Hall. destruct Hall as [Hc Hd].
    rewrite Hc, (IH Hd). reflexivity.
Qed.

Lemma int_acc_nonneg (s : string) (acc : Z) :
  (0 <= acc)%Z -> (0 <= PyStr.int_acc acc s)%Z.
Proof.
  revert acc. induction s as [| c s IH]; simpl; intros acc H; [exact H |].
  apply IH. unfold PyStr.digit_value. lia.
Qed.

(** ** Decimal numerals *)

Lemma int_acc_decimal (d : Decimal.uint) (a : nat) :
  PyStr.int_acc (Z.of_nat a) (NilEmpty.string_of_uint d)
  = Z.of_nat (Nat.of_uint_acc d a).
Proof.
  revert a. induction d as [| d IH | d IH | d IH | d IH | d IH | d IH | d IH
                             | d IH | d IH | d IH]; intros a;
    [reflexivity | ..];
    cbn [NilEmpty.string_of_uint PyStr.int_acc Nat.of_uint_acc];
    rewrite <- IH; f_equal; unfold Nat.tail_mul;
    rewrite Nat.tail_addmul_spec; unfold PyStr.digit_value; simpl nat_of_ascii;
    simpl Nat.sub; lia.
Qed.

Lemma int_of_decimal (n : nat) : PyStr.int_of_digits (decimal n) = Z.of_nat n.
Proof.
  unfold PyStr.int_of_digits, decimal.
  etransitivity; [exact (int_acc_decimal (Nat.to_uint n) 0) |].
  f_equal. exact (DecimalNat.Unsigned.of_to n).
Qed.

(** A run of digits is a numeral, and [int] reads its number. *)
Lemma int_of_numeral (m : string) :
  all_digits m = true ->
  exists u, NilEmpty.uint_of_string m = Some u
            /\ PyStr.int_of_digits m = Z.of_nat (Nat.of_uint u).
Proof.
  intros Hm.
  assert (exists u, NilEmpty.uint_of_string m = Some u) as [u Hu].
  { induction m as [| c m IH]; [eexists; reflexivity |].
    simpl in Hm. apply andb_true_iff in Hm. destruct Hm as [Hc Hm].
    destruct (IH Hm) as [u Hu]. cbn [NilEmpty.uint_of_string]. rewrite Hu.
    apply is_digit_decimal in Hc. cbv in Hc.
    repeat (destruct Hc as [<- | Hc]; [eexists; reflexivity |]).
    contradiction. }
  exists u. split; [exact Hu |].
  rewrite <- (NilEmpty.sus m u Hu). unfold PyStr.int_of_digits.
  exact (int_acc_decimal u 0).
Qed.

Lemma all_digits_numeral (d : Decimal.uint) :
  all_digits (NilEmpty.string_of_uint d) = true.
Proof. induction d; simpl; try rewrite IHd; reflexivity. Qed.

Lemma decimal_nonempty (n : nat) : decimal n <> EmptyString.
Proof.
  unfold decimal.
  rewrite <- (DecimalNat.Unsigned.of_to n) at 1.
  rewrite DecimalNat.Unsigned.to_of. unfold Decimal.unorm.
  destruct (Decimal.nzhead (Nat.to_uint n)); discriminate.
Qed.

(** ** Characters of a text in which a word occurs *)

Lemma contains_first_char (c : ascii) (sub s : string) :
  PyStr.contains (String c sub) s = true -> has_char c s = true.
Proof.
  induction s as [| c' s IH]; simpl; [discriminate |].
  destruct (ascii_dec c c') as [-> | Hne].
  - intros _. rewrite Ascii.eqb_refl. reflexivity.
  - simpl. intros H. rewrite (IH H). apply orb_true_r.
Qed.

Lemma has_char_app (c : ascii) (a b : string) :
  has_char c (a ++ b) = has_char c a || has_char c b.
Proof.
  induction a as [| x a IH]; simpl; [reflexivity |].
  rewrite IH, orb_assoc. reflexivity.
Qed.

Lemma digits_have_no (c : ascii) (ds : string) :
  PyStr.is_digit c = false -> all_digits ds = true -> has_char c ds = false.
Proof.
  intros Hc. induction ds as [| d ds IH]; simpl; [reflexivity |].
  intros H. apply andb_true_iff in H. destruct H as [Hd Hds].
  rewrite (IH Hds), orb_false_r. apply Ascii.eqb_neq. congruence.
Qed.

Lemma no_word_after_digits (c : ascii) (sub ds tail : string) :
  PyStr.is_digit c = false -> all_digits ds = true -> has_char c tail = false ->
  PyStr.contains (String c sub) (ds ++ tail) = false.
Proof.
  intros Hc Hd Ht.
  destruct (PyStr.contains (String c sub) (ds ++ tail)) eqn:H; [| reflexivity].
  apply contains_first_char in H.
  rewrite has_char_app, (digits_have_no c ds Hc Hd), Ht in H. discriminate H.
Qed.

Lemma word_after_digits (word ds pre post : string) :
  PyStr.contains word (ds ++ pre ++ word ++ post) = true.
Proof.
  apply PyStrFacts.contains_occurs. exists (ds ++ pre)%string, post.
  rewrite PyStrFacts.append_assoc. reflexivity.
Qed.

End LoaderCases.

Module LoaderExtras.

(** On a file whose duration column is text, with plain duration texts:
    [load_data] raises exactly when some row names a unit in its duration
    and has no digit there; the exception is then [AttributeError]. *)
Theorem load_data_raises_iff (csv : list csv_row) (e : exn) :
  plain_durations csv ->
  names_a_unit csv ->
  (load_data csv = Raise e <->
   e = AttributeError /\ exists c, In c csv /\ offending c).
Proof.
  intros _ _.
  rewrite Loader.load_data_by_rows. induction csv as [| c csv IH].
  - split; [discriminate | intros (_ & c & [] & _)].
  - cbn [series_apply]. destruct (load_row c) as [r | e'] eqn:Hc; cbn [bind].
    + destruct (LoaderCases.load_row_ok c r Hc) as [_ Hno].
      destruct (series_apply load_row csv) as [t | e''] eqn:Ht; cbn [bind].
      * split; [discriminate |]. intros (-> & c' & [<- | Hin] & Hoff);
          [contradiction |].
        assert (Ok t = Raise AttributeError) as H
          by (apply IH; split; [reflexivity | exists c'; split; assumption]).
        discriminate H.
      * split.
        -- intros H. injection H as ->.
           destruct (proj1 IH eq_refl) as (-> & c' & Hin & Hoff).
           split; [reflexivity |]. exists c'. split; [right |]; assumption.
        -- intros (-> & c' & [<- | Hin] & Hoff); [contradiction |].
           apply IH. split; [reflexivity | exists c'; split; assumption].
    + destruct (LoaderCases.load_row_raise c e' Hc) as [-> Hoff]. split.
      * intros H. injection H as <-. split; [reflexivity |].
        exists c. split; [left; reflexivity | exact Hoff].
      * intros (-> & _). reflexivity.
Qed.

(** A row "min" after a row "90 min" stops the load; without it the file
    loads. *)
Lemma load_data_raises_sample :
  load_data [csv_movie; csv_unit_only] = Raise AttributeError
  /\ load_data [csv_movie; csv_show] = Ok [movie_row; show_row].
Proof.
  split; [| reflexivity].
  apply (load_data_raises_iff [csv_movie; csv_unit_only] AttributeError).
  - repeat constructor; intros s H; injection H as <-; reflexivity.
  - exists csv_movie, "90 min". split; [left; reflexivity |].
    split; [reflexivity |]. left. exists "90 ", "". reflexivity.
  - split; [reflexivity |]. exists csv_unit_only.
    split; [right; left; reflexivity |].
    exists "min". split; [reflexivity |].
    split; [left; exists "", ""; reflexivity |].
    apply LoaderCases.has_digit_digitless. reflexivity.
Defined.

Lemma cell_of_run (unit : string) (d : option string) (n : Z) :
  cell_of unit d = Some n ->
  exists a m b u,
    d = Some (a ++ m ++ b)%string
    /\ digitless a
    /\ m <> EmptyString
    /\ NilEmpty.uint_of_string m = Some u
    /\ (forall c b', b = String c b' -> ~ In c decimal_digits)
    /\ n = Z.of_nat (Nat.of_uint u).
Proof.
  unfold cell_of. destruct d as [s |]; [| discriminate].
  destruct (PyStr.contains unit s); [| discriminate].
  destruct (PyStr.re_search_digits s) as [m |] eqn:Hm; [| discriminate].
  intros H. injection H as <-.
  destruct (LoaderCases.re_search_digits_run s m Hm)
    as (a & b & -> & Ha & Hne & Hd & Hb).
  destruct (LoaderCases.int_of_numeral m Hd) as (u & Hu & Hint).
  exists a, m, b, u.
  split; [reflexivity |].
  split; [apply LoaderCases.has_digit_digitless, Ha |].
  split; [exact Hne |]. split; [exact Hu |]. split; [| exact Hint].
  intros c b' -> Hc. simpl in Hb. apply LoaderCases.is_digit_decimal in Hc.
  congruence.
Qed.

(** With plain duration texts, every number the loader derives is that of
    the first run of digits of the duration text, read to its end: no
    digit stands before the run, none follows it at once, and the number
    is the one the run writes in base ten.  A sign, a decimal point or a
    second number is not read, and the number is never negative. *)
Theorem derived_numbers_first_run (csv : list csv_row) (t : table) :
  plain_durations csv ->
  load_data csv = Ok t ->
  Forall (fun r =>
    forall n, duration_minutes r = Some n \/ num_seasons r = Some n ->
      (0 <= n)%Z
      /\ exists a m b u,
           duration r = Some (a ++ m ++ b)%string
           /\ digitless a
           /\ m <> EmptyString
           /\ NilEmpty.uint_of_string m = Some u
           /\ (forall c b', b = String c b' -> ~ In c decimal_digits)
           /\ n = Z.of_nat (Nat.of_uint u)) t.
Proof.
  intros _ H. apply LoaderProperties.load_data_rows in H.
  induction H as [| c r csv t Hr Hrest IH]; constructor; [| exact IH].
  destruct (LoaderCases.load_row_ok c r Hr) as [-> _].
  cbn [duration duration_minutes num_seasons mk_row].
  assert (forall unit n, cell_of unit (csv_duration c) = Some n ->
            (0 <= n)%Z
            /\ exists a m b u,
                 csv_duration c = Some (a ++ m ++ b)%string
                 /\ digitless a
                 /\ m <> EmptyString
                 /\ NilEmpty.uint_of_string m = Some u
                 /\ (forall c b', b = String c b' -> ~ In c decimal_digits)
                 /\ n = Z.of_nat (Nat.of_uint u)) as Hcell.
  { intros unit n Hn. destruct (cell_of_run _ _ n Hn)
      as (a & m & b & u & H1 & H2 & H3 & H4 & H5 & H6).
    split; [lia |]. exists a, m, b, u. repeat split; assumption. }
  intros n [Hn | Hn]; exact (Hcell _ n Hn).
Qed.

(** A duration "-5 min" loads as 5 minutes, "1.5 Seasons" as 1 season. *)
Lemma derived_numbers_sample :
  load_data [mk_csv_duration "-5 min"; mk_csv_duration "1.5 Seasons"]
  = Ok [mk_row (mk_csv_duration "-5 min") (Some 5%Z) None;
        mk_row (mk_csv_duration "1.5 Seasons") None (Some 1%Z)]
  /\ Forall (fun r =>
       forall n, duration_minutes r = Some n \/ num_seasons r = Some n ->
                 (0 <= n)%Z)
       [mk_row (mk_csv_duration "-5 min") (Some 5%Z) None;
        mk_row (mk_csv_duration "1.5 Seasons") None (Some 1%Z)].
Proof.
  split; [reflexivity |].
  assert (plain_durations
            [mk_csv_duration "-5 min"; mk_csv_duration "1.5 Seasons"]) as Hp
    by (repeat constructor; intros s H; injection H as <-; reflexivity).
  pose proof (derived_numbers_first_run
                [mk_csv_duration "-5 min"; mk_csv_duration "1.5 Seasons"] _
                Hp eq_refl) as H.
  eapply Forall_impl; [| exact H].
  intros r Hr n Hn. exact (proj1 (Hr n Hn)).
Defined.

(** The durations of the catalog, for every number [n] below 10^15 (one
    that [int] reads and a float64 cell holds exactly): "n min" gives [n]
    minutes and no season count; "n Season" and "n Seasons" give [n]
    seasons and no minutes. *)
Theorem derive_catalog_durations (n : nat) :
  (Z.of_nat n < 10 ^ 15)%Z ->
  derive "min" (Some (decimal n ++ " min")%string) = Ok (Some (Z.of_nat n))
  /\ derive "Season" (Some (decimal n ++ " min")%string) = Ok None
  /\ derive "Season" (Some (decimal n ++ " Season")%string) = Ok (Some (Z.of_nat n))
  /\ derive "min" (Some (decimal n ++ " Season")%string) = Ok None
  /\ derive "Season" (Some (decimal n ++ " Seasons")%string) = Ok (Some (Z.of_nat n))
  /\ derive "min" (Some (decimal n ++ " Seasons")%string) = Ok None.
Proof.
  intros _.
  assert (forall tail, starts_with_digit tail = false ->
            PyStr.re_search_digits (decimal n ++ tail) = Some (decimal n)) as Hrun.
  { intros tail Ht. apply LoaderCases.re_search_digits_at;
      [apply LoaderCases.decimal_nonempty
      | apply LoaderCases.all_digits_numeral | exact Ht]. }
  assert (forall c sub tail, PyStr.is_digit c = false -> has_char c tail = false ->
            derive (String c sub) (Some (decimal n ++ tail)%string) = Ok None)
    as Hno.
  { intros c sub tail Hc Ht. unfold derive.
    rewrite (LoaderCases.no_word_after_digits c sub (decimal n) tail Hc
               (LoaderCases.all_digits_numeral _) Ht). reflexivity. }
  assert (forall word pre post, starts_with_digit (pre ++ word ++ post) = false ->
            derive word (Some (decimal n ++ pre ++ word ++ post)%string)
            = Ok (Some (Z.of_nat n))) as Hyes.
  { intros word pre post Ht. unfold derive.
    rewrite LoaderCases.word_after_digits, (Hrun _ Ht),
      LoaderCases.int_of_decimal. reflexivity. }
  split; [exact (Hyes "min" " " "" eq_refl) |].
  split; [exact (Hno "S"%char "eason" " min" eq_refl eq_refl) |].
  split; [exact (Hyes "Season" " " "" eq_refl) |].
  split; [exact (Hno "m"%char "in" " Season" eq_refl eq_refl) |].
  split; [exact (Hyes "Season" " " "s" eq_refl) |].
  exact (Hno "m"%char "in" " Seasons" eq_refl eq_refl).
Qed.

Lemma derive_catalog_durations_sample :
  derive "min" (Some "90 min") = Ok (Some 90%Z)
  /\ derive "Season" (Some "90 min") = Ok None.
Proof.
  destruct (derive_catalog_durations 90) as (H1 & H2 & _).
  - reflexivity.
  - split; [exact H1 | exact H2].
Defined.

End LoaderExtras.

(* ===================================================================== *)
(** * The order of strings and [sorted] *)
(* ===================================================================== *)

Module StringOrder.

Lemma ascii_compare_refl (c : ascii) : Ascii.compare c c = Eq.
Proof. unfold Ascii.compare. apply N.compare_refl. Qed.

Lemma ascii_compare_lt_trans (a b c : ascii) :
  Ascii.compare a b = Lt -> Ascii.compare b c = Lt -> Ascii.compare a c = Lt.
Proof.
  unfold Ascii.compare. rewrite !N.compare_lt_iff. apply N.lt_trans.
Qed.

Lemma compare_refl (s : string) : String.compare s s = Eq.
Proof.
  induction s as [| c s IH]; simpl; [reflexivity |].
  rewrite ascii_compare_refl. exact IH.
Qed.

Lemma compare_lt_trans (a b c : string) :
  String.compare a b = Lt -> String.compare b c = Lt -> String.compare a c = Lt.
Proof.
  revert b c. induction a as [| x a IH]; intros [| y b] [| z c]; simpl;
    try discriminate; try reflexivity.
  destruct (Ascii.compare x y) eqn:Hxy; try discriminate;
    destruct (Ascii.compare y z) eqn:Hyz; try discriminate; intros H1 H2.
  - apply Ascii.compare_eq_iff in Hxy, Hyz. subst.
    rewrite ascii_compare_refl. exact (IH b c H1 H2).
  - apply Ascii.compare_eq_iff in Hxy. subst. rewrite Hyz. reflexivity.
  - apply Ascii.compare_eq_iff in Hyz. subst. rewrite Hxy. reflexivity.
  - rewrite (ascii_compare_lt_trans x y z Hxy Hyz). reflexivity.
Qed.

Lemma str_lt_trans (a b c : string) : str_lt a b -> str_lt b c -> str_lt a c.
Proof.
  unfold str_lt, String.ltb. intros H1 H2.
  destruct (String.compare a b) eqn:Hab; try discriminate.
  destruct (String.compare b c) eqn:Hbc; try discriminate.
  rewrite (compare_lt_trans a b c Hab Hbc). reflexivity.
Qed.

Lemma str_lt_irrefl (a : string) : ~ str_lt a a.
Proof. unfold str_lt, String.ltb. rewrite compare_refl. discriminate. Qed.

Lemma leb_cases (a b : string) :
  String.leb a b = true <-> a = b \/ str_lt a b.
Proof.
  unfold str_lt, String.leb, String.ltb.
  destruct (String.compare a b) eqn:H.
  - apply String.compare_eq_iff in H. tauto.
  - tauto.
  - split; [discriminate |]. intros [-> | E]; [| discriminate E].
    rewrite compare_refl in H. discriminate H.
Qed.

Lemma leb_false (a b : string) : String.leb a b = false -> str_lt b a.
Proof.
  unfold str_lt, String.leb, String.ltb. rewrite (String.compare_antisym b a).
  destruct (String.compare a b); simpl; congruence.
Qed.

Lemma insert_sorted_In (x z : string) (l : list string) :
  In z (insert_sorted x l) <-> z = x \/ In z l.
Proof.
  induction l as [| y l IH]; simpl.
  - split; intros [H | H]; auto.
  - destruct (String.leb x y); simpl; [| rewrite IH]; intuition auto.
Qed.

Lemma sorted_In (z : string) (l : list string) : In z (sorted l) <-> In z l.
Proof.
  induction l as [| x l IH]; simpl; [reflexivity |].
  rewrite insert_sorted_In, IH. intuition auto.
Qed.

Lemma insert_sorted_strict (x : string) (l : list string) :
  StronglySorted str_lt l -> ~ In x l ->
  StronglySorted str_lt (insert_sorted x l).
Proof.
  induction 1 as [| y l Hl IH Hy]; intros Hx; simpl.
  - constructor; constructor.
  - assert (x <> y) as Hne by (intros ->; apply Hx; left; reflexivity).
    assert (~ In x l) as Hx' by (intros H; apply Hx; right; exact H).
    destruct (String.leb x y) eqn:Hle.
    + apply leb_cases in Hle. destruct Hle as [E | Hlt]; [contradiction |].
      constructor; [constructor; assumption |].
      constructor; [exact Hlt |].
      rewrite Forall_forall in *. intros z Hz.
      exact (str_lt_trans x y z Hlt (Hy z Hz)).
    + apply leb_false in Hle.
      constructor; [apply IH; exact Hx' |].
      apply Forall_forall. intros z Hz. apply insert_sorted_In in Hz.
      destruct Hz as [-> | Hz]; [exact Hle |].
      rewrite Forall_forall in Hy. exact (Hy z Hz).
Qed.

(** [sorted] of a list without repeats is strictly increasing. *)
Lemma sorted_strict (l : list string) :
  NoDup l -> StronglySorted str_lt (sorted l).
Proof.
  induction 1 as [| x l Hx Hl IH]; simpl; [constructor |].
  apply insert_sorted_strict; [exact IH |].
  rewrite sorted_In. exact Hx.
Qed.

End StringOrder.

(* ===================================================================== *)
(** * The sidebar *)
(* ===================================================================== *)

Module Sidebar.

Lemma explode_split (sep : string) (col : list string) :
  explode (str_split sep col) = map Some (concat (map (PyStr.split sep) col)).
Proof.
  unfold str_split. induction col as [| s col IH]; [reflexivity |].
  cbn [map]. destruct (PyStr.split sep s) as [| x xs] eqn:Hs.
  - exfalso. exact (PyStrFacts.split_from_nonempty sep 0 s Hs).
  - cbn [explode concat]. rewrite IH, map_app. reflexivity.
Qed.

Lemma set_of_strings_some (l : list string) :
  set_of_strings (map Some l) = Ok (unique l).
Proof.
  unfold set_of_strings.
  assert (series_apply
            (fun c : option string =>
               match c with Some x => Ok x | None => Raise TypeError end)
            (map Some l) = Ok l) as ->; [| reflexivity].
  induction l as [| x l IH]; simpl; [reflexivity |]. rewrite IH. reflexivity.
Qed.

(** Past the [.str] accessor the options do not raise: no list is empty
    after [str.split], so the exploded column has no NaN. *)
Lemma token_options_sorted (col : list (option string)) :
  token_options col
  = if reads_as_text col
    then Ok (sorted (unique (concat (map (PyStr.split ", ") (dropna col)))))
    else Raise AttributeError.
Proof.
  unfold token_options, str_accessor.
  destruct (reads_as_text col); [| reflexivity].
  cbn [bind]. rewrite explode_split, set_of_strings_some. reflexivity.
Qed.

Lemma token_options_ok (col : list (option string)) (opts : list string) :
  token_options col = Ok opts ->
  reads_as_text col = true
  /\ opts = sorted (unique (concat (map (PyStr.split ", ") (dropna col)))).
Proof.
  rewrite token_options_sorted. destruct (reads_as_text col); [| discriminate].
  intros H. injection H as <-. split; reflexivity.
Qed.

(** A column read from the file is text when the table has no row or
    some cell of the column is not null. *)
Lemma reads_as_text_rows (col : row -> option string) (df : table) :
  reads_as_text (map col df) = true <->
  df = [] \/ exists r, In r df /\ col r <> None.
Proof.
  unfold reads_as_text. rewrite orb_true_iff, existsb_exists. split.
  - intros [H | (c & Hc & Hv)].
    + left. destruct df; [reflexivity | discriminate H].
    + right. apply in_map_iff in Hc. destruct Hc as (r & <- & Hr).
      exists r. split; [exact Hr |]. destruct (col r); [discriminate |].
      discriminate Hv.
  - intros [-> | (r & Hr & Hv)]; [left; reflexivity |].
    right. exists (col r). split; [apply in_map, Hr |].
    destruct (col r); [reflexivity | contradiction Hv; reflexivity].
Qed.


(** A piece of a split text occurs in the text. *)
Lemma piece_occurs (sep : string) (p : string) (pieces : list string) :
  In p pieces -> occurs_in p (PyStr.join sep pieces).
Proof.
  induction pieces as [| q rest IH]; [contradiction |].
  intros Hin. destruct rest as [| q' rest].
  - destruct Hin as [-> | []]. exists EmptyString, EmptyString.
    simpl. clear. induction p as [| c p IHp]; simpl; [reflexivity | f_equal; exact IHp].
  - change (PyStr.join sep (q :: q' :: rest))
      with (q ++ sep ++ PyStr.join sep (q' :: rest))%string.
    destruct Hin as [-> | Hin].
    + exists EmptyString, (sep ++ PyStr.join sep (q' :: rest))%string. reflexivity.
    + destruct (IH Hin) as (a & b & E). rewrite E.
      exists (q ++ sep ++ a)%string, b.
      rewrite !PyStrFacts.append_assoc. reflexivity.
Qed.

Lemma token_occurs (p s : string) :
  In p (PyStr.split ", " s) -> occurs_in p s.
Proof.
  intros H. rewrite <- (PyStrFacts.join_split ", " s) by discriminate.
  apply piece_occurs. exact H.
Qed.

Lemma in_dropna {A : Type} (x : A) (col : list (option A)) :
  In x (dropna col) <-> In (Some x) col.
Proof.
  induction col as [| [y |] col IH]; simpl; [reflexivity | |].
  - rewrite IH. split; intros [H | H]; auto; [left; congruence |].
    injection H as <-. left. reflexivity.
  - rewrite IH. split; [auto | intros [H | H]; [discriminate H | exact H]].
Qed.



Lemma in_tokens (col : row -> option string) (f : table) (c : string) :
  In c (concat (map (PyStr.split ", ") (dropna (map col f)))) <->
  exists r x, In r f /\ col r = Some x /\ In c (PyStr.split ", " x).
Proof.
  rewrite in_concat. split.
  - intros (pieces & Hp & Hc). apply in_map_iff in Hp.
    destruct Hp as (x & <- & Hx). apply in_dropna, in_map_iff in Hx.
    destruct Hx as (r & Hr & Hin). exists r, x. repeat split; assumption.
  - intros (r & x & Hin & Hr & Hc). exists (PyStr.split ", " x).
    split; [| exact Hc]. apply in_map, in_dropna. rewrite <- Hr.
    apply in_map. exact Hin.
Qed.

(** ** The minimum and the maximum of a column *)

Lemma fold_min_le (l : list Z) (a : Z) :
  (fold_left Z.min l a <= a)%Z
  /\ Forall (fun y => (fold_left Z.min l a <= y)%Z) l
  /\ In (fold_left Z.min l a) (a :: l).
Proof.
  revert a. induction l as [| y l IH]; intros a; simpl.
  - split; [lia |]. split; [constructor | left; reflexivity].
  - destruct (IH (Z.min a y)) as (H1 & H2 & H3).
    split; [lia |]. split.
    + constructor; [lia | exact H2].
    + destruct H3 as [H3 | H3]; [| right; right; exact H3].
      rewrite <- H3. destruct (Z.min_spec a y) as [[_ ->] | [_ ->]]; auto.
Qed.

Lemma fold_max_ge (l : list Z) (a : Z) :
  (a <= fold_left Z.max l a)%Z
  /\ Forall (fun y => (y <= fold_left Z.max l a)%Z) l
  /\ In (fold_left Z.max l a) (a :: l).
Proof.
  revert a. induction l as [| y l IH]; intros a; simpl.
  - split; [lia |]. split; [constructor | left; reflexivity].
  - destruct (IH (Z.max a y)) as (H1 & H2 & H3).
    split; [lia |]. split.
    + constructor; [lia | exact H2].
    + destruct H3 as [H3 | H3]; [| right; right; exact H3].
      rewrite <- H3. destruct (Z.max_spec a y) as [[_ ->] | [_ ->]]; auto.
Qed.

Lemma year_bounds_rows (df : table) (lo hi : Z) :
  year_bounds df = Bounds lo hi ->
  forall r, In r df -> (lo <= release_year r <= hi)%Z.
Proof.
  unfold year_bounds. destruct df as [| r0 df]; simpl; [discriminate |].
  intros H. injection H as <- <-.
  destruct (fold_min_le (map release_year df) (release_year r0)) as (Hm1 & Hm2 & _).
  destruct (fold_max_ge (map release_year df) (release_year r0)) as (HM1 & HM2 & _).
  rewrite Forall_forall in Hm2, HM2.
  intros r [<- | Hr]; [lia |].
  split; [apply Hm2 | apply HM2]; apply in_map; exact Hr.
Qed.

End Sidebar.

Module SidebarProperties.



(** The rating widget offers each non-null rating of the table once, in
    increasing order; the type widget offers each type once, in order of
    first appearance. *)
Theorem rating_type_options_listing (df : table) :
  StronglySorted str_lt (rating_options df)
  /\ (forall v, In v (rating_options df) <->
                exists r, In r df /\ rating r = Some v)
  /\ StronglySorted (seen_before (map type df)) (type_options df)
  /\ (forall t, In t (type_options df) <-> exists r, In r df /\ type r = t).
Proof.
  unfold rating_options, type_options.
  split; [apply StringOrder.sorted_strict, Aggregates.NoDup_unique |].
  split.
  - intros v. rewrite StringOrder.sorted_In, Filters.In_unique,
      Sidebar.in_dropna, in_map_iff.
    split; intros (r & H1 & H2); exists r; auto.
  - split; [apply Aggregates.unique_first_seen |].
    intros t. rewrite Filters.In_unique, in_map_iff.
    split; intros (r & H1 & H2); exists r; auto.
Qed.

(** When the country widget is built: choosing one offered country keeps
    at least one row of the table; choosing all of them keeps exactly the
    rows whose country is not null; and there is nothing to choose only
    for the table without rows. *)
Theorem country_options_select (df : table) (opts : list string) :
  country_options df = Ok opts ->
  (forall c, In c opts ->
     exists r, In r (filter (fun r => keeps_tokens [c] (country r)) df)
               /\ country_filter [c] df
                  = Ok (filter (fun r => keeps_tokens [c] (country r)) df))
  /\ (opts <> [] ->
      country_filter opts df = Ok (filter (fun r => has_value (country r)) df))
  /\ (opts = [] <-> df = []).
Proof.
  intros Hok. unfold country_options in Hok.
  apply Sidebar.token_options_ok in Hok. destruct Hok as [Htext ->].
  fold (country_tokens df).
  assert (forall c, In c (sorted (unique (country_tokens df))) <->
                    exists r x, In r df /\ country r = Some x
                                /\ In c (PyStr.split ", " x)) as Hopt.
  { intros c. rewrite StringOrder.sorted_In, Filters.In_unique.
    apply (Sidebar.in_tokens country). }
  split; [| split].
  - intros c Hc. apply Hopt in Hc. destruct Hc as (r & x & Hr & Hx & Hp).
    exists r. split; [| apply Filters.country_filter_rows].
    apply filter_In. split; [exact Hr |].
    apply (Filters.keeps_tokens_iff country); [discriminate |].
    exists x. split; [exact Hx |]. exists c.
    split; [left; reflexivity | apply Sidebar.token_occurs, Hp].
  - intros Hne. rewrite Filters.country_filter_rows. f_equal.
    apply filter_ext_in. intros r Hr. unfold has_value.
    destruct (country r) as [x |] eqn:Hx.
    + rewrite <- Hx. apply (Filters.keeps_tokens_iff country); [exact Hne |].
      exists x. split; [exact Hx |].
      destruct (PyStr.split ", " x) as [| p ps] eqn:Hs;
        [exfalso; exact (PyStrFacts.split_from_nonempty ", " 0 x Hs) |].
      exists p. split.
      * apply Hopt. exists r, x. rewrite Hs. repeat split; auto. left. reflexivity.
      * apply Sidebar.token_occurs. rewrite Hs. left. reflexivity.
    + unfold keeps_tokens.
      destruct (sorted (unique (country_tokens df)));
        [contradiction Hne; reflexivity | reflexivity].
  - split.
    + intros Hnil. apply Sidebar.reads_as_text_rows in Htext.
      destruct Htext as [-> | (r & Hr & Hv)]; [reflexivity |].
      exfalso. destruct (country r) as [x |] eqn:Hx;
        [| contradiction Hv; reflexivity].
      destruct (PyStr.split ", " x) as [| p ps] eqn:Hs;
        [exact (PyStrFacts.split_from_nonempty ", " 0 x Hs) |].
      assert (In p (sorted (unique (country_tokens df)))) as Hp
        by (apply Hopt; exists r, x; rewrite Hs; repeat split; auto;
            left; reflexivity).
      rewrite Hnil in Hp. exact Hp.
    + intros ->. reflexivity.
Qed.

Lemma country_options_select_sample :
  country_options [classic_row; movie_row; show_row]
  = Ok ["France"; "India"; "United States"]
  /\ country_filter ["France"; "India"; "United States"]
       [classic_row; movie_row; show_row]
     = Ok (filter (fun r => has_value (country r))
             [classic_row; movie_row; show_row]).
Proof.
  split; [reflexivity |].
  apply (country_options_select [classic_row; movie_row; show_row]
           ["France"; "India"; "United States"] eq_refl).
  discriminate.
Defined.

(** Choosing one offered rating keeps at least one row.  Choosing all of
    them keeps exactly the rows whose rating is not null. *)
Theorem rating_options_select (df : table) :
  (forall v, In v (rating_options df) ->
     exists r, In r (filter (keeps_rating [v]) df)
               /\ rating r = Some v
               /\ rating_filter [v] df = Ok (filter (keeps_rating [v]) df))
  /\ (rating_options df <> [] ->
      rating_filter (rating_options df) df
      = Ok (filter (fun r => has_value (rating r)) df)).
Proof.
  assert (forall v, In v (rating_options df) <->
                    exists r, In r df /\ rating r = Some v) as Hopt.
  { intros v. unfold rating_options.
    rewrite StringOrder.sorted_In, Filters.In_unique, Sidebar.in_dropna,
      in_map_iff.
    split; intros (r & H1 & H2); exists r; auto. }
  split.
  - intros v Hv. apply Hopt in Hv. destruct Hv as (r & Hr & Hv).
    exists r. split; [| split; [exact Hv | apply Filters.rating_filter_rows]].
    apply filter_In. split; [exact Hr |].
    unfold keeps_rating. rewrite Hv. apply Filters.mem_In. left. reflexivity.
  - intros Hne. rewrite Filters.rating_filter_rows. f_equal.
    apply filter_ext_in. intros r Hr. unfold keeps_rating, has_value.
    destruct (rating_options df) as [| v0 rest] eqn:E;
      [contradiction Hne; reflexivity |].
    destruct (rating r) as [v |] eqn:Hv; [| reflexivity].
    apply Filters.mem_In, Hopt. exists r. auto.
Qed.

(** The slider cannot be built for an empty table: [int] of the NaN
    minimum raises.  For any other table its bounds are the smallest and
    the largest release year, and the range from bound to bound keeps
    every row. *)
Theorem year_bounds_span (df : table) :
  (year_bounds df = ValueError <-> df = [])
  /\ forall lo hi,
       year_bounds df = Bounds lo hi ->
       (forall r, In r df -> (lo <= release_year r <= hi)%Z)
       /\ (exists r, In r df /\ release_year r = lo)
       /\ (exists r, In r df /\ release_year r = hi)
       /\ year_filter (lo, hi) df = Ok df.
Proof.
  unfold year_bounds. destruct df as [| r0 df]; simpl.
  - split; [tauto | discriminate].
  - split; [split; discriminate |]. intros lo hi H. injection H as <- <-.
    destruct (Sidebar.fold_min_le (map release_year df) (release_year r0))
      as (Hm1 & Hm2 & Hm3).
    destruct (Sidebar.fold_max_ge (map release_year df) (release_year r0))
      as (HM1 & HM2 & HM3).
    pose proof (Sidebar.year_bounds_rows (r0 :: df) _ _ eq_refl) as Hall.
    split; [exact Hall |].
    assert (forall y, In y (release_year r0 :: map release_year df) ->
              exists r, In r (r0 :: df) /\ release_year r = y) as Hrow.
    { intros y Hy. change (In y (map release_year (r0 :: df))) in Hy.
      apply in_map_iff in Hy. destruct Hy as (r & E & Hr). exists r. auto. }
    split; [exact (Hrow _ Hm3) |]. split; [exact (Hrow _ HM3) |].
    rewrite Filters.year_filter_rows, Filters.filter_all; [reflexivity |].
    intros r Hr. unfold keeps_year. cbn [fst snd].
    apply andb_true_iff. rewrite !Z.leb_le. exact (Hall r Hr).
Qed.

Lemma year_bounds_sample :
  year_bounds [movie_row; show_row; no_duration_row] = Bounds 2015 2020
  /\ year_filter (2015, 2020)%Z [movie_row; show_row; no_duration_row]
     = Ok [movie_row; show_row; no_duration_row].
Proof.
  split; [reflexivity |].
  apply (proj2 (year_bounds_span [movie_row; show_row; no_duration_row])
           2015%Z 2020%Z eq_refl).
Defined.

(** For a table whose release years span 2010 to 2021 (the slider takes
    no initial value outside its bounds): before the user changes a
    widget, the filtered table is the rows released from 2010 to 2021;
    with the slider moved to its two bounds nothing is filtered out. *)
Theorem initial_view (df : table) (lo hi : Z) :
  year_bounds df = Bounds lo hi -> (lo <= 2010)%Z -> (2021 <= hi)%Z ->
  filtered_df (initial_selection df) df
  = Ok (filter (keeps_year (2010, 2021)%Z) df)
  /\ filtered_df
       {| types := type_options df; countries := []; genres := [];
          ratings := []; year_range := (lo, hi) |} df
     = Ok df.
Proof.
  intros Hb _ _.
  assert (forall range,
            filtered_df
              {| types := type_options df; countries := []; genres := [];
                 ratings := []; year_range := range |} df
            = Ok (filter (keeps_year range) df)) as H.
  { intros range.
    rewrite Filters.filtered_df_cases, Filters.loses_columns_no_tokens
      by reflexivity.
    f_equal. apply filter_ext_in. intros r Hr. unfold keeps, keeps_type.
    cbn [types countries genres ratings year_range keeps_tokens keeps_rating].
    assert (mem (type r) (type_options df) = true) as ->
      by (apply Filters.mem_In, Filters.In_unique, in_map, Hr).
    reflexivity. }
  split; [exact (H (2010, 2021)%Z) |].
  rewrite H.
  pose proof (Sidebar.year_bounds_rows df lo hi Hb) as Hall.
  rewrite Filters.filter_all; [reflexivity |]. intros r Hr. unfold keeps_year.
  cbn [fst snd]. apply andb_true_iff. rewrite !Z.leb_le. exact (Hall r Hr).
Qed.

Lemma initial_view_sample :
  year_bounds [classic_row; movie_row; show_row; recent_row] = Bounds 2005 2021
  /\ filtered_df (initial_selection [classic_row; movie_row; show_row; recent_row])
       [classic_row; movie_row; show_row; recent_row]
     = Ok [movie_row; show_row; recent_row].
Proof.
  split; [reflexivity |].
  destruct (initial_view [classic_row; movie_row; show_row; recent_row]
              2005%Z 2021%Z eq_refl) as [H _]; [lia | lia |].
  rewrite H. reflexivity.
Defined.

End SidebarProperties.

(* ===================================================================== *)
(** * Counting over any keys *)
(* ===================================================================== *)

Module CountingFacts.

Section Keys.

Context {K : Type} (eqb : K -> K -> bool).
Hypothesis eqb_spec : forall a b, reflect (a = b) (eqb a b).

Lemma eqb_same (a : K) : eqb a a = true.
Proof. destruct (eqb_spec a a); [reflexivity | contradiction]. Qed.

Lemma existsb_eqb (x : K) (l : list K) : existsb (eqb x) l = true <-> In x l.
Proof.
  rewrite existsb_exists. split.
  - intros (y & Hy & E). destruct (eqb_spec x y); [subst; exact Hy | discriminate].
  - intros H. exists x. split; [exact H | apply eqb_same].
Qed.

Lemma tally_by_snoc (l : list K) (x : K) :
  tally_by eqb (l ++ [x]) = bump_by eqb x (tally_by eqb l).
Proof. unfold tally_by. rewrite fold_left_app. reflexivity. Qed.

Lemma total_bump_by (k : K) (tab : list (K * nat)) :
  list_sum (map snd (bump_by eqb k tab)) = S (list_sum (map snd tab)).
Proof.
  induction tab as [| [k' n] tab IH]; simpl; [reflexivity |].
  destruct (eqb k k'); simpl; [reflexivity | rewrite IH; lia].
Qed.

Lemma total_tally_by (l : list K) :
  list_sum (map snd (tally_by eqb l)) = List.length l.
Proof.
  induction l as [| x l IH] using rev_ind; [reflexivity |].
  rewrite tally_by_snoc, total_bump_by, IH, length_app. simpl. lia.
Qed.

Lemma In_unique_by (v : K) (col : list K) :
  In v (unique_by eqb col) <-> In v col.
Proof.
  induction col as [| w col IH]; simpl; [reflexivity |].
  rewrite filter_In, IH. split.
  - intros [H | [H _]]; [left | right]; exact H.
  - intros [H | H]; [left; exact H |].
    destruct (eqb_spec v w) as [-> | Hne]; [left; reflexivity |].
    right. split; [exact H | reflexivity].
Qed.

Lemma NoDup_unique_by (l : list K) : NoDup (unique_by eqb l).
Proof.
  induction l as [| v l IH]; simpl; constructor.
  - rewrite filter_In, eqb_same. intros [_ H]. discriminate H.
  - apply Aggregates.NoDup_filter, IH.
Qed.

Lemma unique_by_snoc (p : list K) (x : K) :
  unique_by eqb (p ++ [x])
  = if existsb (eqb x) p then unique_by eqb p else unique_by eqb p ++ [x].
Proof.
  induction p as [| v p IH]; [reflexivity |].
  cbn [app unique_by existsb]. rewrite IH.
  destruct (eqb_spec x v) as [-> | Hne]; cbn [orb].
  - destruct (existsb (eqb v) p); [reflexivity |].
    rewrite filter_app. cbn [filter]. rewrite eqb_same. cbn [negb].
    rewrite app_nil_r. reflexivity.
  - destruct (existsb (eqb x) p); [reflexivity |].
    rewrite filter_app. cbn [filter].
    destruct (eqb_spec x v); [contradiction | reflexivity].
Qed.

Lemma occurrences_by_snoc (k : K) (p : list K) (x : K) :
  occurrences_by eqb k (p ++ [x])
  = if eqb k x then S (occurrences_by eqb k p) else occurrences_by eqb k p.
Proof.
  unfold occurrences_by. rewrite filter_app, length_app. cbn [filter].
  destruct (eqb k x); simpl; lia.
Qed.

Lemma occurrences_by_absent (k : K) (p : list K) :
  ~ In k p -> occurrences_by eqb k p = 0.
Proof.
  unfold occurrences_by. induction p as [| v p IH]; simpl; intros H; [reflexivity |].
  destruct (eqb_spec k v) as [-> | Hne]; [tauto |]. apply IH. tauto.
Qed.

Lemma bump_by_counts (x : K) (g : K -> nat) (u : list K) :
  NoDup u -> (~ In x u -> g x = 0) ->
  bump_by eqb x (map (fun k => (k, g k)) u)
  = map (fun k => (k, if eqb k x then S (g k) else g k))
        (if existsb (eqb x) u then u else u ++ [x]).
Proof.
  induction u as [| k u IH]; intros Hnd H0.
  - simpl. rewrite eqb_same, (H0 (fun H : In x [] => H)). reflexivity.
  - inversion Hnd as [| ? ? Hk Hu]; subst. cbn [map bump_by existsb].
    destruct (eqb_spec x k) as [-> | Hne]; cbn [orb].
    + cbn [map]. rewrite eqb_same. f_equal.
      apply map_ext_in. intros k' Hk'.
      destruct (eqb_spec k' k) as [-> | _]; [contradiction | reflexivity].
    + rewrite IH; [| exact Hu |
        intros Hx; apply H0; intros [E | E]; [congruence | contradiction]].
      replace (if existsb (eqb x) u then k :: u else (k :: u) ++ [x])
        with (k :: (if existsb (eqb x) u then u else u ++ [x]))
        by (destruct (existsb (eqb x) u); reflexivity).
      cbn [map]. destruct (eqb_spec k x); [congruence | reflexivity].
Qed.

Lemma tally_by_counts (l : list K) :
  tally_by eqb l
  = map (fun k => (k, occurrences_by eqb k l)) (unique_by eqb l).
Proof.
  induction l as [| x l IH] using rev_ind; [reflexivity |].
  rewrite tally_by_snoc, IH, bump_by_counts.
  - assert (existsb (eqb x) (unique_by eqb l) = existsb (eqb x) l) as ->.
    { destruct (existsb (eqb x) l) eqn:E.
      - apply existsb_eqb, In_unique_by, existsb_eqb, E.
      - destruct (existsb (eqb x) (unique_by eqb l)) eqn:E'; [| reflexivity].
        apply (proj1 (existsb_eqb _ _)), (proj1 (In_unique_by _ _)),
          (proj2 (existsb_eqb _ _)) in E'. congruence. }
    rewrite unique_by_snoc. apply map_ext. intros k.
    rewrite occurrences_by_snoc. reflexivity.
  - apply NoDup_unique_by.
  - rewrite In_unique_by. apply occurrences_by_absent.
Qed.

Lemma tally_by_In (l : list K) (k : K) (n : nat) :
  In (k, n) (tally_by eqb l) <-> In k l /\ n = occurrences_by eqb k l.
Proof.
  rewrite tally_by_counts, in_map_iff. split.
  - intros (k' & E & Hk). injection E as -> <-.
    split; [apply In_unique_by; exact Hk | reflexivity].
  - intros [Hk ->]. exists k. split; [reflexivity | apply In_unique_by, Hk].
Qed.

Lemma tally_by_keys (l : list K) : NoDup (map fst (tally_by eqb l)).
Proof.
  rewrite tally_by_counts, map_map. cbn [fst]. rewrite map_id.
  apply NoDup_unique_by.
Qed.

Lemma insert_count_perm (x : K * nat) (l : list (K * nat)) :
  Permutation (insert_count x l) (x :: l).
Proof.
  induction l as [| y l IH]; simpl; [reflexivity |].
  destruct (snd x <? snd y)%nat; [| reflexivity].
  rewrite IH. apply perm_swap.
Qed.

Lemma sort_count_perm (l : list (K * nat)) : Permutation (sort_count l) l.
Proof.
  induction l as [| x l IH]; simpl; [reflexivity |].
  rewrite insert_count_perm, IH. reflexivity.
Qed.

Lemma total_perm (l l' : list (K * nat)) :
  Permutation l l' -> list_sum (map snd l) = list_sum (map snd l').
Proof. induction 1; simpl; lia. Qed.

End Keys.

(** ** [sort_index] *)

Lemma insert_key_perm (x : Z * nat) (l : list (Z * nat)) :
  Permutation (insert_key x l) (x :: l).
Proof.
  induction l as [| y l IH]; simpl; [reflexivity |].
  destruct (fst x <=? fst y)%Z; [reflexivity |].
  rewrite IH. apply perm_swap.
Qed.

Lemma sort_index_perm (l : list (Z * nat)) : Permutation (sort_index l) l.
Proof.
  induction l as [| x l IH]; simpl; [reflexivity |].
  rewrite insert_key_perm, IH. reflexivity.
Qed.

Lemma insert_key_sorted (x : Z * nat) (l : list (Z * nat)) :
  StronglySorted (fun a b => (fst a <= fst b)%Z) l ->
  StronglySorted (fun a b => (fst a <= fst b)%Z) (insert_key x l).
Proof.
  induction 1 as [| y l Hl IH Hy]; simpl; [constructor; constructor |].
  destruct (Z.leb_spec (fst x) (fst y)) as [Hle | Hgt].
  - constructor; [constructor; assumption |].
    constructor; [exact Hle |].
    rewrite Forall_forall in *. intros z Hz. specialize (Hy z Hz). lia.
  - constructor; [exact IH |].
    apply Forall_forall. intros z Hz.
    apply (Permutation_in _ (insert_key_perm x l)) in Hz.
    destruct Hz as [<- | Hz]; [lia |].
    rewrite Forall_forall in Hy. exact (Hy z Hz).
Qed.

Lemma sort_index_sorted (l : list (Z * nat)) :
  StronglySorted (fun a b => (fst a <= fst b)%Z) (sort_index l).
Proof.
  induction l as [| x l IH]; simpl; [constructor |].
  apply insert_key_sorted, IH.
Qed.

(** Sorted keys without repeats are strictly increasing. *)
Lemma sorted_keys_strict (l : list (Z * nat)) :
  StronglySorted (fun a b => (fst a <= fst b)%Z) l ->
  NoDup (map fst l) ->
  StronglySorted (fun a b => (fst a < fst b)%Z) l.
Proof.
  induction 1 as [| x l Hl IH Hx]; simpl; intros Hnd; [constructor |].
  inversion Hnd as [| ? ? Hnot Hrest]; subst.
  constructor; [apply IH; exact Hrest |].
  rewrite Forall_forall in *. intros z Hz.
  specialize (Hx z Hz).
  assert (fst x <> fst z) by (intros E; apply Hnot; rewrite E; apply in_map, Hz).
  lia.
Qed.

Lemma filter_map_length {A B : Type} (g : A -> B) (p : B -> bool) (l : list A) :
  List.length (filter p (map g l)) = List.length (filter (fun a => p (g a)) l).
Proof.
  induction l as [| a l IH]; simpl; [reflexivity |].
  destruct (p (g a)); simpl; rewrite IH; reflexivity.
Qed.

End CountingFacts.

(* ===================================================================== *)
(** * Properties of the other charts *)
(* ===================================================================== *)

Module Charts.

Lemma rows_rated_occurrences (k : string) (f : table) :
  rows_rated k f = occurrences k (dropna (map rating f)).
Proof.
  unfold rows_rated, occurrences. induction f as [| r f IH]; [reflexivity |].
  cbn [map filter]. destruct (rating r) as [v |]; cbn [dropna filter].
  - rewrite (String.eqb_sym k v). destruct (String.eqb v k); simpl;
      rewrite IH; reflexivity.
  - exact IH.
Qed.

Lemma dropna_length {A : Type} (col : row -> option A) (f : table) :
  List.length (dropna (map col f))
  = List.length (filter (fun r => has_value (col r)) f).
Proof.
  induction f as [| r f IH]; [reflexivity |].
  cbn [map filter]. unfold has_value at 1.
  destruct (col r); simpl; rewrite IH; reflexivity.
Qed.

Lemma total_counts (l l' : list (string * nat)) :
  Permutation l l' -> list_sum (map snd l) = list_sum (map snd l').
Proof. induction 1; simpl; lia. Qed.

Lemma value_counts_In (sort_values : sorter) (col : list (option string))
  (k : string) (n : nat) :
  sorts_by_count sort_values ->
  (In (k, n) (value_counts sort_values col) <->
   In (Some k) col /\ n = occurrences k (dropna col)).
Proof.
  intros Hsv. unfold value_counts.
  destruct (Hsv (tally (dropna col))) as [Hperm _].
  rewrite <- Sidebar.in_dropna, <- Aggregates.tally_In. split; intros H.
  - exact (Permutation_in _ Hperm H).
  - exact (Permutation_in _ (Permutation_sym Hperm) H).
Qed.

Lemma contains_self (s : string) : PyStr.contains s s = true.
Proof.
  apply PyStrFacts.contains_occurs. exists EmptyString, EmptyString.
  simpl. induction s as [| c s IH]; simpl; [reflexivity | f_equal; exact IH].
Qed.

Lemma getitem_eq_mask (kind : string) (f : table) :
  getitem f (map (fun t => String.eqb t kind) (map type f))
  = filter (fun r => String.eqb (type r) kind) f.
Proof. rewrite map_map. apply Filters.getitem_map. Qed.

(** What a conditional section shows. *)
Lemma section_of_shown (kind : string) (field : row -> option Z) (f : table) :
  (heading (section_of kind field f) = true <->
   exists r, In r f /\ occurs_in kind (type r))
  /\ plotted (section_of kind field f)
     = match values_of kind field f with
       | [] => None
       | v :: vs => Some (v :: vs)
       end
  /\ (plotted (section_of kind field f) <> None <->
      exists r, In r f /\ type r = kind /\ field r <> None).
Proof.
  assert (values_of kind field f <> [] <->
          exists r, In r f /\ type r = kind /\ field r <> None) as Hvals.
  { unfold values_of. split.
    - intros H. destruct (dropna _) as [| v vs] eqn:E; [contradiction H; reflexivity |].
      assert (In v (dropna (map field (filter (fun r => String.eqb (type r) kind) f))))
        as Hv by (rewrite E; left; reflexivity).
      apply Sidebar.in_dropna, in_map_iff in Hv. destruct Hv as (r & Hr & Hin).
      apply filter_In in Hin. destruct Hin as [Hin Hk].
      apply String.eqb_eq in Hk. exists r. rewrite Hr. repeat split; auto. discriminate.
    - intros (r & Hin & Hk & Hf) E.
      destruct (field r) as [v |] eqn:Hv; [| contradiction Hf; reflexivity].
      assert (In v (dropna (map field (filter (fun r => String.eqb (type r) kind) f))))
        as Hin'.
      { apply Sidebar.in_dropna. rewrite <- Hv. apply in_map, filter_In.
        split; [exact Hin | apply String.eqb_eq, Hk]. }
      rewrite E in Hin'. exact Hin'. }
  assert (str_contains_any kind (map type f) = true <->
          exists r, In r f /\ occurs_in kind (type r)) as Hguard.
  { unfold str_contains_any. rewrite existsb_exists. split.
    - intros (t & Ht & Hc). apply in_map_iff in Ht. destruct Ht as (r & <- & Hr).
      exists r. split; [exact Hr | apply PyStrFacts.contains_occurs, Hc].
    - intros (r & Hr & Hc). exists (type r).
      split; [apply in_map, Hr | apply PyStrFacts.contains_occurs, Hc]. }
  assert (plotted (section_of kind field f)
          = match values_of kind field f with
            | [] => None
            | v :: vs => Some (v :: vs)
            end) as Hplot.
  { unfold section_of. rewrite getitem_eq_mask. fold (values_of kind field f).
    destruct (str_contains_any kind (map type f)) eqn:G;
      [cbn [plotted]; destruct (values_of kind field f); reflexivity |].
    cbn [plotted].
    destruct (values_of kind field f) as [| v vs] eqn:E; [reflexivity |].
    exfalso. assert (v :: vs <> []) as Hne by discriminate.
    apply Hvals in Hne. destruct Hne as (r & Hr & Hk & _).
    assert (false = true) as G'.
    { apply Hguard. exists r. split; [exact Hr |].
      apply PyStrFacts.contains_occurs. rewrite Hk. apply contains_self. }
    discriminate G'. }
  split; [| split; [exact Hplot |]].
  - unfold section_of.
    destruct (str_contains_any kind (map type f)) eqn:G; cbn [heading].
    + split; [intros _; apply Hguard; reflexivity | reflexivity].
    + split; [discriminate |]. intros H. apply Hguard in H. discriminate H.
  - rewrite Hplot, <- Hvals.
    destruct (values_of kind field f); split; congruence.
Qed.

End Charts.

Module ChartProperties.

(** The points of the line chart come by strictly increasing year, one
    per release year of the table with the number of its rows; the counts
    add up to the number of rows. *)
Theorem titles_per_year_points (f : table) :
  StronglySorted (fun a b => (fst a < fst b)%Z) (titles_per_year f)
  /\ (forall y n,
        In (y, n) (titles_per_year f) <->
        (exists r, In r f /\ release_year r = y)
        /\ n = List.length (filter (fun r => Z.eqb y (release_year r)) f))
  /\ list_sum (map snd (titles_per_year f)) = n_titles f.
Proof.
  unfold titles_per_year. set (years := map release_year f).
  assert (Permutation (sort_index (sort_count (tally_by Z.eqb years)))
                      (tally_by Z.eqb years)) as Hperm.
  { rewrite CountingFacts.sort_index_perm. apply CountingFacts.sort_count_perm. }
  split; [| split].
  - apply CountingFacts.sorted_keys_strict; [apply CountingFacts.sort_index_sorted |].
    apply (Permutation_NoDup (Permutation_sym (Permutation_map fst Hperm))).
    apply (CountingFacts.tally_by_keys Z.eqb Z.eqb_spec).
  - intros y n. split.
    + intros H. apply (Permutation_in _ Hperm) in H.
      apply (CountingFacts.tally_by_In Z.eqb Z.eqb_spec) in H.
      destruct H as [Hy ->]. split.
      * apply in_map_iff in Hy. destruct Hy as (r & E & Hr). exists r. auto.
      * apply CountingFacts.filter_map_length.
    + intros [(r & Hr & E) ->].
      apply (Permutation_in _ (Permutation_sym Hperm)).
      apply (CountingFacts.tally_by_In Z.eqb Z.eqb_spec). split.
      * rewrite <- E. apply in_map, Hr.
      * symmetry. apply CountingFacts.filter_map_length.
  - rewrite (CountingFacts.total_perm _ _ Hperm),
      (CountingFacts.total_tally_by Z.eqb).
    apply length_map.
Qed.

Example titles_per_year_sample :
  titles_per_year [recent_row; movie_row; classic_row; show_row; movie_row]
  = [(2005%Z, 1); (2015%Z, 2); (2019%Z, 1); (2021%Z, 1)].
Proof. reflexivity. Qed.

(** The rating chart has one bar per non-null rating, by decreasing
    height; the height [countplot] counts is the count of
    [value_counts]; rows without a rating are in no bar, so the heights
    add up to the number of rows that have a rating.  This holds whatever
    order the sort of [value_counts] gives to equal counts. *)
Theorem rating_bars_heights (sort_values : sorter) (f : table) :
  sorts_by_count sort_values ->
  rating_bars sort_values f = value_counts sort_values (map rating f)
  /\ StronglySorted (fun a b => snd b <= snd a) (rating_bars sort_values f)
  /\ (forall k n,
        In (k, n) (rating_bars sort_values f) <->
        (exists r, In r f /\ rating r = Some k) /\ n = rows_rated k f)
  /\ list_sum (map snd (rating_bars sort_values f))
     = List.length (filter (fun r => has_value (rating r)) f).
Proof.
  intros Hsv.
  assert (rating_bars sort_values f = value_counts sort_values (map rating f))
    as Hbars.
  { unfold rating_bars, rating_order. rewrite map_map.
    rewrite <- (map_id (value_counts sort_values (map rating f))) at 2.
    apply map_ext_in. intros [k n] Hin. cbn [fst].
    apply (Charts.value_counts_In sort_values _ _ _ Hsv) in Hin.
    destruct Hin as [_ ->].
    rewrite Charts.rows_rated_occurrences. reflexivity. }
  split; [exact Hbars |]. rewrite Hbars. split; [| split].
  - unfold value_counts. apply Hsv.
  - intros k n. rewrite (Charts.value_counts_In sort_values _ _ _ Hsv),
      in_map_iff, Charts.rows_rated_occurrences.
    split; intros [(r & H1 & H2) Hn]; (split; [exists r; auto | exact Hn]).
  - unfold value_counts.
    rewrite (Charts.total_counts _ _ (proj1 (Hsv _))), Aggregates.total_tally.
    apply Charts.dropna_length.
Qed.

Lemma rating_bars_heights_sample :
  rating_bars sort_desc [movie_row; classic_row; show_row; no_duration_row]
  = [("PG-13", 2); ("TV-MA", 1)]
  /\ list_sum (map snd (rating_bars sort_desc
                          [movie_row; classic_row; show_row; no_duration_row]))
     = 3.
Proof.
  split; [reflexivity |].
  exact (proj2 (proj2 (proj2
    (rating_bars_heights sort_desc
       [movie_row; classic_row; show_row; no_duration_row]
       Aggregates.sort_desc_sorts)))).
Defined.

(** The movie section.  Its heading is written when some type contains
    "Movie"; its histogram is drawn when some row of type exactly "Movie"
    has a non-null [duration_minutes], and then shows those values in row
    order.  So a histogram comes with its heading, and a type such as
    "Movies", or movies without minutes, give a heading and no chart. *)
Theorem movie_section_shown (f : table) :
  (heading (movie_section f) = true <->
   exists r, In r f /\ occurs_in "Movie" (type r))
  /\ plotted (movie_section f)
     = match values_of "Movie" duration_minutes f with
       | [] => None
       | v :: vs => Some (v :: vs)
       end
  /\ (plotted (movie_section f) <> None <->
      exists r, In r f /\ type r = "Movie" /\ duration_minutes r <> None)
  /\ (plotted (movie_section f) <> None -> heading (movie_section f) = true).
Proof.
  destruct (Charts.section_of_shown "Movie" duration_minutes f) as (H1 & H2 & H3).
  split; [exact H1 |]. split; [exact H2 |]. split; [exact H3 |].
  intros H. apply H3 in H. destruct H as (r & Hr & Hk & _).
  apply H1. exists r. split; [exact Hr |].
  apply PyStrFacts.contains_occurs. rewrite Hk. reflexivity.
Qed.

(** The season section, in the same way, for the type "TV Show" and the
    column [num_seasons]. *)
Theorem tv_section_shown (f : table) :
  (heading (tv_section f) = true <->
   exists r, In r f /\ occurs_in "TV Show" (type r))
  /\ plotted (tv_section f)
     = match values_of "TV Show" num_seasons f with
       | [] => None
       | v :: vs => Some (v :: vs)
       end
  /\ (plotted (tv_section f) <> None <->
      exists r, In r f /\ type r = "TV Show" /\ num_seasons r <> None)
  /\ (plotted (tv_section f) <> None -> heading (tv_section f) = true).
Proof.
  destruct (Charts.section_of_shown "TV Show" num_seasons f) as (H1 & H2 & H3).
  split; [exact H1 |]. split; [exact H2 |]. split; [exact H3 |].
  intros H. apply H3 in H. destruct H as (r & Hr & Hk & _).
  apply H1. exists r. split; [exact Hr |].
  apply PyStrFacts.contains_occurs. rewrite Hk. reflexivity.
Qed.

Example sections_sample :
  movie_section [movie_row; show_row; classic_row]
  = {| heading := true; plotted := Some [90; 101]%Z |}
  /\ tv_section [movie_row; classic_row]
     = {| heading := false; plotted := None |}
  /\ movie_section [no_duration_row]
     = {| heading := true; plotted := None |}.
Proof. repeat split. Qed.

End ChartProperties.

(* ===================================================================== *)
(** * Properties across the stages *)
(* ===================================================================== *)

Module Pipeline.

Lemma filter_subseq_impl {A : Type} (p q : A -> bool) (l : list A) :
  (forall x, In x l -> p x = true -> q x = true) ->
  subseq (filter p l) (filter q l).
Proof.
  induction l as [| x l IH]; intros H; simpl; [constructor |].
  assert (subseq (filter p l) (filter q l)) as Hrest
    by (apply IH; intros y Hy; apply H; right; exact Hy).
  destruct (p x) eqn:Hp.
  - rewrite (H x (or_introl eq_refl) Hp). apply subseq_keep. exact Hrest.
  - destruct (q x); [apply subseq_skip |]; exact Hrest.
Qed.

Lemma existsb_incl {A : Type} (p : A -> bool) (a b : list A) :
  incl a b -> existsb p a = true -> existsb p b = true.
Proof.
  intros Hin H. apply existsb_exists in H. destruct H as (x & Hx & Hp).
  apply existsb_exists. exists x. split; [apply Hin, Hx | exact Hp].
Qed.

Lemma keeps_tokens_wider (a b : list string) (cell : option string) :
  at_most a b -> keeps_tokens a cell = true -> keeps_tokens b cell = true.
Proof.
  intros [-> | [Hne Hin]]; [reflexivity |]. unfold keeps_tokens.
  destruct a as [| x a]; [contradiction Hne; reflexivity |].
  destruct b as [| y b]; [reflexivity |].
  destruct cell as [s |]; [apply existsb_incl; exact Hin | discriminate].
Qed.

Lemma keeps_rating_wider (a b : list string) (r : row) :
  at_most a b -> keeps_rating a r = true -> keeps_rating b r = true.
Proof.
  intros [-> | [Hne Hin]]; [reflexivity |]. unfold keeps_rating.
  destruct a as [| x a]; [contradiction Hne; reflexivity |].
  destruct b as [| y b]; [reflexivity |].
  destruct (rating r) as [v |]; [| discriminate].
  unfold mem. apply existsb_incl. exact Hin.
Qed.

(** The derived cells of a loaded row are filled exactly when the unit
    token is in the duration text. *)
Lemma loaded_cells (c : csv_row) (r : row) :
  load_row c = Ok r ->
  (duration_minutes r <> None <->
   exists d, duration r = Some d /\ PyStr.contains "min" d = true)
  /\ (num_seasons r <> None <->
      exists d, duration r = Some d /\ PyStr.contains "Season" d = true).
Proof.
  intros H. destruct (Loader.load_row_units c r H) as [_ Hu].
  unfold units_spec in Hu. destruct (duration r) as [d |].
  - destruct Hu as [Hm Hs].
    rewrite <- PyStrFacts.contains_occurs in Hm, Hs.
    split; (split; [intros Hv; exists d; split; [reflexivity | tauto] |]);
      intros (d' & E & C); injection E as <-; tauto.
  - destruct Hu as [-> ->].
    split; (split; [congruence |]; intros (d' & E & _); discriminate E).
Qed.

(** A wider selection indexes an emptied frame at line 39 or 42 only if
    the narrower one does. *)
Lemma loses_columns_wider (sel sel' : selection) (df : table) :
  incl (types sel) (types sel') ->
  at_most (countries sel) (countries sel') ->
  at_most (genres sel) (genres sel') ->
  loses_columns sel df = false -> loses_columns sel' df = false.
Proof.
  intros Ht Hc Hg. unfold loses_columns.
  rewrite !orb_false_iff, !andb_false_iff. intros [H1 H2].
  assert (forall r, keeps_type (types sel) r = true ->
                    keeps_type (types sel') r = true) as Htype.
  { intros r. unfold keeps_type. rewrite !Filters.mem_In. apply Ht. }
  split.
  - destruct (truthy (countries sel')) eqn:Hc'; [right | left; reflexivity].
    destruct H1 as [H1 | H1].
    + destruct Hc as [Hc | [Hc _]].
      * rewrite Hc in Hc'. discriminate Hc'.
      * destruct (countries sel); [contradiction Hc; reflexivity |].
        discriminate H1.
    + apply Filters.filter_some in H1. destruct H1 as (r & Hr & Hv).
      apply Filters.filter_some. exists r. split; [| exact Hv].
      apply filter_In in Hr. apply filter_In.
      split; [apply Hr | apply Htype, Hr].
  - destruct (truthy (genres sel')) eqn:Hg'; [right | left; reflexivity].
    destruct H2 as [H2 | H2].
    + destruct Hg as [Hg | [Hg _]].
      * rewrite Hg in Hg'. discriminate Hg'.
      * destruct (genres sel); [contradiction Hg; reflexivity |].
        discriminate H2.
    + apply Filters.filter_some in H2. destruct H2 as (r & Hr & Hv).
      apply Filters.filter_some. exists r. split; [| exact Hv].
      apply filter_In in Hr. destruct Hr as [Hr Hk].
      apply filter_In in Hr. destruct Hr as [Hr Hty].
      apply filter_In. split; [apply filter_In; split |].
      * exact Hr.
      * apply Htype, Hty.
      * exact (keeps_tokens_wider _ _ _ Hc Hk).
Qed.

Lemma loaded_row (csv : list csv_row) (df : table) (r : row) :
  load_data csv = Ok df -> In r df -> exists c, In c csv /\ load_row c = Ok r.
Proof.
  intros H. apply LoaderProperties.load_data_rows in H.
  induction H as [| c r' csv df Hr Hrest IH]; [contradiction |].
  intros [<- | Hin].
  - exists c. split; [left; reflexivity | exact Hr].
  - destruct (IH Hin) as (c' & Hc & Hl). exists c'. split; [right |]; assumption.
Qed.

End Pipeline.

Module PipelineProperties.

(** Widening a selection never loses a row, and never makes lines 36-45
    raise: with more types, a wider choice of countries, genres and
    ratings (the empty choice being the widest) and a wider range of
    years, when the narrower selection returns a table so does the wider
    one, and its table contains the former, in order. *)
Theorem filtered_df_monotone (sel sel' : selection) (df out : table) :
  incl (types sel) (types sel') ->
  at_most (countries sel) (countries sel') ->
  at_most (genres sel) (genres sel') ->
  at_most (ratings sel) (ratings sel') ->
  (fst (year_range sel') <= fst (year_range sel))%Z ->
  (snd (year_range sel) <= snd (year_range sel'))%Z ->
  filtered_df sel df = Ok out ->
  exists out',
    filtered_df sel' df = Ok out'
    /\ subseq out out'.
Proof.
  intros Ht Hc Hg Hr Hlo Hhi Hout.
  apply Filters.filtered_df_ok in Hout. destruct Hout as [Hcols ->].
  exists (filter (keeps sel') df).
  rewrite Filters.filtered_df_cases,
    (Pipeline.loses_columns_wider sel sel' df Ht Hc Hg Hcols).
  split; [reflexivity |].
  apply Pipeline.filter_subseq_impl. intros r _. unfold keeps.
  rewrite !andb_true_iff. intros ((((H1 & H2) & H3) & H4) & H5).
  repeat split.
  - unfold keeps_type in *. apply Filters.mem_In, Ht, Filters.mem_In, H1.
  - exact (Pipeline.keeps_tokens_wider _ _ _ Hc H2).
  - exact (Pipeline.keeps_tokens_wider _ _ _ Hg H3).
  - exact (Pipeline.keeps_rating_wider _ _ _ Hr H4).
  - unfold keeps_year in *. apply andb_true_iff in H5.
    rewrite !Z.leb_le in H5. apply andb_true_iff. rewrite !Z.leb_le. lia.
Qed.

(** Adding "United States" to the choice "India" keeps what was kept;
    the choice of no country at all is wider still. *)
Lemma filtered_df_monotone_sample :
  at_most ["India"] ["India"; "United States"]
  /\ filtered_df sample_selection [classic_row; movie_row; show_row]
     = Ok [movie_row; show_row]
  /\ exists out',
       filtered_df
         {| types := ["Movie"; "TV Show"];
            countries := ["India"; "United States"];
            genres := []; ratings := [];
            year_range := (2000, 2021)%Z |}
         [classic_row; movie_row; show_row] = Ok out'
       /\ subseq [movie_row; show_row] out'.
Proof.
  assert (at_most ["India"] ["India"; "United States"]) as H.
  { right. split; [discriminate |]. intros x [<- | []]. left. reflexivity. }
  split; [exact H |]. split; [reflexivity |].
  apply (filtered_df_monotone sample_selection
           {| types := ["Movie"; "TV Show"];
              countries := ["India"; "United States"];
              genres := []; ratings := [];
              year_range := (2000, 2021)%Z |}
           [classic_row; movie_row; show_row]).
  - apply incl_refl.
  - exact H.
  - left. reflexivity.
  - left. reflexivity.
  - simpl. lia.
  - simpl. lia.
  - reflexivity.
Defined.

(** From the csv file to the two conditional charts: the histogram of
    movie durations is drawn exactly when a row kept by the filters has
    the type "Movie" and "min" in its duration text, and the season chart
    exactly when a kept row has the type "TV Show" and "Season" in its
    duration text. *)
Theorem charts_from_durations (csv : list csv_row) (sel : selection)
  (df f : table) :
  load_data csv = Ok df ->
  filtered_df sel df = Ok f ->
  (plotted (movie_section f) <> None <->
   exists r d, In r df /\ keeps sel r = true /\ type r = "Movie"
               /\ duration r = Some d /\ PyStr.contains "min" d = true)
  /\ (plotted (tv_section f) <> None <->
      exists r d, In r df /\ keeps sel r = true /\ type r = "TV Show"
                  /\ duration r = Some d /\ PyStr.contains "Season" d = true).
Proof.
  intros Hload Hf. apply Filters.filtered_df_ok in Hf. destruct Hf as [_ ->].
  destruct (Charts.section_of_shown "Movie" duration_minutes
              (filter (keeps sel) df)) as (_ & _ & Hm).
  destruct (Charts.section_of_shown "TV Show" num_seasons
              (filter (keeps sel) df)) as (_ & _ & Ht).
  unfold movie_section, tv_section. rewrite Hm, Ht. split.
  - split.
    + intros (r & Hr & Hk & Hv). apply filter_In in Hr. destruct Hr as [Hr Hkeep].
      destruct (Pipeline.loaded_row csv df r Hload Hr) as (c & _ & Hc).
      destruct (Pipeline.loaded_cells c r Hc) as [Hcell _].
      apply Hcell in Hv. destruct Hv as (d & Hd & Hmin).
      exists r, d. repeat split; assumption.
    + intros (r & d & Hr & Hkeep & Hk & Hd & Hmin).
      destruct (Pipeline.loaded_row csv df r Hload Hr) as (c & _ & Hc).
      destruct (Pipeline.loaded_cells c r Hc) as [Hcell _].
      exists r. split; [apply filter_In; split; assumption |].
      split; [exact Hk |]. apply Hcell. exists d. split; assumption.
  - split.
    + intros (r & Hr & Hk & Hv). apply filter_In in Hr. destruct Hr as [Hr Hkeep].
      destruct (Pipeline.loaded_row csv df r Hload Hr) as (c & _ & Hc).
      destruct (Pipeline.loaded_cells c r Hc) as [_ Hcell].
      apply Hcell in Hv. destruct Hv as (d & Hd & Hs).
      exists r, d. repeat split; assumption.
    + intros (r & d & Hr & Hkeep & Hk & Hd & Hs).
      destruct (Pipeline.loaded_row csv df r Hload Hr) as (c & _ & Hc).
      destruct (Pipeline.loaded_cells c r Hc) as [_ Hcell].
      exists r. split; [apply filter_In; split; assumption |].
      split; [exact Hk |]. apply Hcell. exists d. split; assumption.
Qed.

Lemma charts_from_durations_sample :
  load_data [csv_movie; csv_show] = Ok [movie_row; show_row]
  /\ filtered_df sample_selection [movie_row; show_row]
     = Ok [movie_row; show_row]
  /\ plotted (movie_section [movie_row; show_row]) <> None
  /\ plotted (tv_section [movie_row; show_row]) <> None.
Proof.
  split; [reflexivity |]. split; [reflexivity |].
  destruct (charts_from_durations [csv_movie; csv_show] sample_selection
              [movie_row; show_row] [movie_row; show_row] eq_refl eq_refl)
    as [Hm Ht].
  split.
  - apply Hm. exists movie_row, "90 min". repeat split. left. reflexivity.
  - apply Ht. exists show_row, "2 Seasons". repeat split. right. left. reflexivity.
Defined.

(** Every country on the chart of the filtered table is one the sidebar
    offers, whatever the selection and whatever order the sort of
    [value_counts] gives to equal counts. *)
Theorem charted_countries_offered (sort_values : sorter) (sel : selection)
  (df f : table) (opts : list string) :
  sorts_by_count sort_values ->
  filtered_df sel df = Ok f ->
  country_options df = Ok opts ->
  forall c n, In (c, n) (top_countries sort_values f) -> In c opts.
Proof.
  intros Hsv Hf Hopts c n Hin.
  apply Filters.filtered_df_ok in Hf. destruct Hf as [_ ->].
  unfold country_options in Hopts.
  apply Sidebar.token_options_ok in Hopts. destruct Hopts as [_ ->].
  rewrite Aggregates.top_countries_ranking in Hin.
  apply Aggregates.firstn_In in Hin.
  apply (Permutation_in _ (proj1 (Hsv _))), Aggregates.tally_In in Hin.
  destruct Hin as [Hc _].
  apply (Sidebar.in_tokens country) in Hc. destruct Hc as (r & x & Hr & Hx & Hp).
  apply StringOrder.sorted_In, Filters.In_unique, (Sidebar.in_tokens country).
  exists r, x. apply filter_In in Hr. destruct Hr as [Hr _].
  repeat split; assumption.
Qed.

Lemma charted_countries_offered_sample :
  filtered_df sample_selection [classic_row; movie_row; show_row]
  = Ok [movie_row; show_row]
  /\ country_options [classic_row; movie_row; show_row]
     = Ok ["France"; "India"; "United States"]
  /\ In "India" ["France"; "India"; "United States"].
Proof.
  split; [reflexivity |]. split; [reflexivity |].
  apply (charted_countries_offered sort_desc sample_selection
           [classic_row; movie_row; show_row] [movie_row; show_row]
           ["France"; "India"; "United States"]
           Aggregates.sort_desc_sorts eq_refl eq_refl "India" 2).
  left. reflexivity.
Defined.

End PipelineProperties.
